(** * hewenyu/llm: provider registry and bounded batch embedder

    A shallow embedding of the Go package [llm]: the provider registry
    ([service.go]) and the embedder built on top of it ([LLMEmbedder]),
    together with the properties the specification states about them.

    Conventions of the embedding:
    - a Go slice is an [option (list A)]: [None] is the nil slice;
    - a Go return [(T, error)] is a pair [T * option error], [None] being
      the nil error;
    - a Go [int] is a [Z] (no arithmetic is done on them here, only
      comparisons, so no wrap-around is involved);
    - a [float64] is a primitive binary64 float;
    - a method with a pointer receiver that mutates it returns the new
      receiver next to its results;
    - the order in which [range] walks a map, and the order in which the
      runtime schedules goroutines, are explicit oracle arguments: every
      theorem quantifies over them. *)

From Stdlib Require Import ZArith List.
From Stdlib Require Import Floats.PrimFloat.
From Stdlib Require Floats.SpecFloat Floats.FloatOps.
From Stdlib Require Import Numbers.DecimalString.
From stdpp Require Import base option list gmap strings.

(** ** Go values *)

Definition slice (A : Type) : Type := option (list A).

(** [len(s)], 0 on the nil slice. *)
Definition len {A : Type} (s : slice A) : Z :=
  match s with
  | None => 0%Z
  | Some l => Z.of_nat (length l)
  end.

Definition float64 : Set := float.

(** Values of type [error].  [errors.New] and [fmt.Errorf] without [%w]
    build an [errorString]; [fmt.Errorf] with [%w] builds a [wrapError]
    that keeps the formatted message and the wrapped cause. *)
Inductive error : Type :=
| errorString (s : string)
| wrapError (msg : string) (err : error).

Definition Error (e : error) : string :=
  match e with
  | errorString s => s
  | wrapError msg _ => msg
  end.


(** [fmt.Errorf(prefix + "%w", err)] *)
Definition Errorf_w (prefix : string) (err : error) : error :=
  wrapError (prefix +:+ Error err) err.

(** The verb [%d] on an [int]. *)
Definition fmt_d (n : Z) : string := NilZero.string_of_int (Z.to_int n).

(** Values of type [interface{}], by dynamic type.  A value whose dynamic
    type has a [String() string] method is kept as what that method
    returns; [struct_any] stands for any other dynamic type, named. *)
Inductive any : Type :=
| nil_any
| string_any (c : string)
| bytes_any (c : slice Byte.byte)
| Stringer_any (String : string)
| int_any (n : Z)
| float64_any (f : float64)
| bool_any (b : bool)
| struct_any (type_name : string).

(** The conversion [string(c)] of a [[]byte]. *)
Definition string_of_bytes (c : slice Byte.byte) : string :=
  String.string_of_list_byte (default [] c).

(** [context.Context], as far as a callee can see it: [ctx.Err()]. *)
Record Context : Type := { ctx_Err : option error }.

Definition Background : Context := {| ctx_Err := None |}.

(** ** Data model ([Provider]'s file) *)

Record Message : Type := {
  Role : string;
  Content : string;
  Message_Name : string;
  Message_Context : gmap string any;
}.

Record ModelInfo : Type := {
  ModelInfo_Name : string;
  ContextWindowSize : Z;
  MaxOutputTokens : Z;
  SupportsImageInput : bool;
  SupportsAudioInput : bool;
  SupportsVisionOutput : bool;
  PricingPerInputToken : float64;
  PricingPerOutputToken : float64;
}.

Record CompletionRequest : Type := {
  Prompt : string;
  CompletionRequest_MaxTokens : Z;
  CompletionRequest_Temperature : float64;
  CompletionRequest_TopP : float64;
  CompletionRequest_FrequencyPenalty : float64;
  CompletionRequest_PresencePenalty : float64;
  CompletionRequest_Stop : slice string;
  CompletionRequest_Metadata : gmap string any;
}.

Record ChatRequest : Type := {
  Messages : slice Message;
  ChatRequest_MaxTokens : Z;
  ChatRequest_Temperature : float64;
  ChatRequest_TopP : float64;
  ChatRequest_FrequencyPenalty : float64;
  ChatRequest_PresencePenalty : float64;
  ChatRequest_Stop : slice string;
  ChatRequest_Metadata : gmap string any;
}.

Record EmbeddingRequest : Type := {
  Input : string;
  Model : string;
  EmbeddingRequest_Metadata : gmap string any;
}.

Record Usage : Type := {
  PromptTokens : Z;
  CompletionTokens : Z;
  TotalTokens : Z;
}.

Record CompletionResponse : Type := {
  Text : string;
  CompletionResponse_Usage : Usage;
  CompletionResponse_Metadata : gmap string any;
  CompletionResponse_Timestamp : Z;
}.

Record ChatResponse : Type := {
  ChatResponse_Message : Message;
  ChatResponse_Usage : Usage;
  ChatResponse_Metadata : gmap string any;
  ChatResponse_Timestamp : Z;
}.

Record EmbeddingResponse : Type := {
  Embedding : slice float64;
  EmbeddingResponse_Usage : Usage;
  EmbeddingResponse_Metadata : gmap string any;
}.

(** Zero values, as the composite literals [T{}] give them. *)
Definition Usage_zero : Usage :=
  {| PromptTokens := 0; CompletionTokens := 0; TotalTokens := 0 |}.

Definition Message_zero : Message :=
  {| Role := ""; Content := ""; Message_Name := ""; Message_Context := ∅ |}.

Definition ModelInfo_zero : ModelInfo :=
  {| ModelInfo_Name := ""; ContextWindowSize := 0; MaxOutputTokens := 0;
     SupportsImageInput := false; SupportsAudioInput := false;
     SupportsVisionOutput := false;
     PricingPerInputToken := 0%float; PricingPerOutputToken := 0%float |}.

Definition CompletionResponse_zero : CompletionResponse :=
  {| Text := ""; CompletionResponse_Usage := Usage_zero;
     CompletionResponse_Metadata := ∅; CompletionResponse_Timestamp := 0 |}.

Definition ChatResponse_zero : ChatResponse :=
  {| ChatResponse_Message := Message_zero; ChatResponse_Usage := Usage_zero;
     ChatResponse_Metadata := ∅; ChatResponse_Timestamp := 0 |}.

Definition EmbeddingResponse_zero : EmbeddingResponse :=
  {| Embedding := None; EmbeddingResponse_Usage := Usage_zero;
     EmbeddingResponse_Metadata := ∅ |}.

(** The [Provider] interface: a non-nil interface value is the record of
    its methods; a possibly nil one is an [option Provider.t]. *)
Module Provider.

Record t : Type := {
  Name : string;
  ListModels : Context → slice ModelInfo * option error;
  GetModel : Context → string → ModelInfo * option error;
  Complete : Context → string → CompletionRequest →
             CompletionResponse * option error;
  Chat : Context → string → ChatRequest → ChatResponse * option error;
  Embed : Context → string → EmbeddingRequest →
          EmbeddingResponse * option error;
  GetEmbedModel : string;
}.

End Provider.

(** ** Map iteration

    [for k, v := range m] visits every entry once, in an order the Go
    runtime picks afresh for every loop.  [range_map rnd m] is that
    order: [rnd] drives the choice, entry by entry. *)

Fixpoint shuffle {A : Type} (rnd : list nat) (l : list A) : list A :=
  match rnd with
  | [] => l
  | r :: rnd' =>
      match l !! (r `mod` length l) with
      | None => l
      | Some x => x :: shuffle rnd' (delete (r `mod` length l) l)
      end
  end.

Definition range_map {V : Type} (rnd : list nat) (m : gmap string V)
  : list (string * V) :=
  shuffle rnd (map_to_list m).

(** ** The [Service] interface *)

Module Service.

Class t (S : Type) : Type := {
  RegisterProvider : S → option Provider.t → S * option error;
  GetProvider : S → string → option Provider.t * option error;
  ListProviders : list nat → S → slice string;
  ListModels : list nat → list nat → S → Context →
               option (gmap string (slice ModelInfo)) * option error;
  GetModel : S → Context → string → string → ModelInfo * option error;
  Complete : S → Context → string → string → CompletionRequest →
             CompletionResponse * option error;
  Chat : S → Context → string → string → ChatRequest →
         ChatResponse * option error;
  Embed : S → Context → string → string → EmbeddingRequest →
          EmbeddingResponse * option error;
}.

End Service.

(** ** The registry ([service.go]) *)

Module service.

(** The mutex [mu] is not a field here: every method body below is the
    critical section it guards, taken as one step. *)
Record t : Type := { providers : gmap string Provider.t }.

Definition NewService : t := {| providers := ∅ |}.

Definition RegisterProvider (s : t) (provider : option Provider.t)
  : t * option error :=
  match provider with
  | None => (s, Some (errorString "provider cannot be nil"))
  | Some p =>
      let name := Provider.Name p in
      if decide (name = "") then
        (s, Some (errorString "provider name cannot be empty"))
      else
        match providers s !! name with
        | Some _ =>
            (s, Some (errorString ("provider " +:+ name +:+ " already registered")))
        | None => ({| providers := <[name := p]> (providers s) |}, None)
        end
  end.

Definition GetProvider (s : t) (name : string)
  : option Provider.t * option error :=
  match providers s !! name with
  | None => (None, Some (errorString ("provider " +:+ name +:+ " not found")))
  | Some provider => (Some provider, None)
  end.

(** [providers = append(providers, name)] for every key, starting from
    an empty non-nil slice. *)
Definition ListProviders (rnd : list nat) (s : t) : slice string :=
  Some (foldl (λ providers entry, providers ++ [entry.1]) []
              (range_map rnd (providers s))).

(** The snapshot loop: [providers[name] = provider] for every entry. *)
Definition snapshot (rnd : list nat) (s : t) : gmap string Provider.t :=
  foldl (λ providers entry, <[entry.1 := entry.2]> providers) ∅
        (range_map rnd (providers s)).

(** The body of the second loop of [ListModels], over the entries still
    to visit, with the [result] map built so far. *)
Fixpoint ListModels_loop (ctx : Context)
    (entries : list (string * Provider.t))
    (result : gmap string (slice ModelInfo))
  : option (gmap string (slice ModelInfo)) * option error :=
  match entries with
  | [] => (Some result, None)
  | (name, provider) :: entries' =>
      match Provider.ListModels provider ctx with
      | (_, Some err) =>
          (None,
           Some (Errorf_w ("failed to list models for provider " +:+ name +:+ ": ") err))
      | (models, None) =>
          ListModels_loop ctx entries' (<[name := models]> result)
      end
  end.

Definition ListModels (rnd_copy rnd_call : list nat) (s : t) (ctx : Context)
  : option (gmap string (slice ModelInfo)) * option error :=
  let providers := snapshot rnd_copy s in
  ListModels_loop ctx (range_map rnd_call providers) ∅.

(** The four dispatching methods return the zero value and the error when
    [GetProvider] fails, and forward to the provider otherwise.
    [GetProvider] never returns a nil provider with a nil error, so the
    last case of each [match] is never taken. *)
Definition GetModel (s : t) (ctx : Context) (providerName modelID : string)
  : ModelInfo * option error :=
  match GetProvider s providerName with
  | (Some provider, None) => Provider.GetModel provider ctx modelID
  | (_, Some err) => (ModelInfo_zero, Some err)
  | (None, None) => (ModelInfo_zero, None)
  end.

Definition Complete (s : t) (ctx : Context) (providerName modelID : string)
    (request : CompletionRequest) : CompletionResponse * option error :=
  match GetProvider s providerName with
  | (Some provider, None) => Provider.Complete provider ctx modelID request
  | (_, Some err) => (CompletionResponse_zero, Some err)
  | (None, None) => (CompletionResponse_zero, None)
  end.

Definition Chat (s : t) (ctx : Context) (providerName modelID : string)
    (request : ChatRequest) : ChatResponse * option error :=
  match GetProvider s providerName with
  | (Some provider, None) => Provider.Chat provider ctx modelID request
  | (_, Some err) => (ChatResponse_zero, Some err)
  | (None, None) => (ChatResponse_zero, None)
  end.

Definition Embed (s : t) (ctx : Context) (providerName modelID : string)
    (request : EmbeddingRequest) : EmbeddingResponse * option error :=
  match GetProvider s providerName with
  | (Some provider, None) => Provider.Embed provider ctx modelID request
  | (_, Some err) => (EmbeddingResponse_zero, Some err)
  | (None, None) => (EmbeddingResponse_zero, None)
  end.

(** The states the registry can be in: the one [NewService] builds and
    those [RegisterProvider] leaves behind (no other method writes). *)
Inductive reachable : t → Prop :=
| reachable_new : reachable NewService
| reachable_register s provider :
    reachable s → reachable (RegisterProvider s provider).1.

End service.

#[export] Instance service_Service : Service.t service.t := {
  Service.RegisterProvider := service.RegisterProvider;
  Service.GetProvider := service.GetProvider;
  Service.ListProviders := service.ListProviders;
  Service.ListModels := service.ListModels;
  Service.GetModel := service.GetModel;
  Service.Complete := service.Complete;
  Service.Chat := service.Chat;
  Service.Embed := service.Embed;
}.

(** ** The embedder ([LLMEmbedder]) *)

(** One call of [service.Embed] as the embedder makes it. *)
Record EmbedCall : Type := {
  call_ctx : Context;
  call_provider : string;
  call_model : string;
  call_request : EmbeddingRequest;
}.

(** A computation that returns [value] after making the calls of [trace],
    oldest first. *)
Record Traced (A : Type) : Type := { value : A; trace : list EmbedCall }.
Arguments value {A} _.
Arguments trace {A} _.

#[export] Instance Traced_ret : MRet Traced :=
  λ A a, {| value := a; trace := [] |}.

#[export] Instance Traced_bind : MBind Traced :=
  λ A B k m,
    let r := k (value m) in {| value := value r; trace := trace m ++ trace r |}.

(** How a call of [BatchEmbed] can end. *)
Inductive outcome (A : Type) : Type :=
| Returned (a : A)
| Panicked (msg : string)
| Blocked.
Arguments Returned {A} a.
Arguments Panicked {A} msg.
Arguments Blocked {A}.

(** Where a worker goroutine of [BatchEmbed] is: before [semaphore <- struct{}{}],
    holding a permit before its [Embed] call, after it has stored its
    outcome, and after the deferred function has run. *)
Inductive worker : Set := Waiting | Holding | Stored | Exited.

#[export] Instance worker_eq_dec : EqDecision worker.
Proof. solve_decision. Defined.

(** The steps of one [BatchEmbed] call: a worker acquires a permit; it
    embeds its item and stores the outcome; it runs its deferred function
    ([<-semaphore; done <- idx]); the caller receives one completion. *)
Inductive event : Set :=
| Acquire (idx : nat)
| Work (idx : nat)
| Exit (idx : nat)
| Recv.

#[export] Instance event_eq_dec : EqDecision event.
Proof. solve_decision. Defined.

Module LLMEmbedder.
Section WithService.

Context {S : Type} `{!Service.t S}.

Record t : Type := {
  service : S;
  provider : string;
  model : string;
  dimensions : Z;
  maxPoolSize : Z;
}.

Definition NewLLMEmbedder (service : S) (provider model : string)
    (dimensions : Z) : t :=
  {| service := service; provider := provider; model := model;
     dimensions := dimensions; maxPoolSize := 10 |}.

Definition SetMaxPoolSize (e : t) (size : Z) : t :=
  if decide (size > 0)%Z then
    {| service := service e; provider := provider e; model := model e;
       dimensions := dimensions e; maxPoolSize := size |}
  else
    {| service := service e; provider := provider e; model := model e;
       dimensions := dimensions e; maxPoolSize := 10 |}.

(** The embedders the package's interface builds: the fields are
    unexported, so a usable embedder comes from the constructor and the
    setter. *)
Inductive constructed : t → Prop :=
| constructed_new service provider model dimensions :
    constructed (NewLLMEmbedder service provider model dimensions)
| constructed_set e size :
    constructed e → constructed (SetMaxPoolSize e size).

(** [e.service.Embed(ctx, e.provider, e.model, request)] *)
Definition service_Embed (e : t) (ctx : Context) (request : EmbeddingRequest)
  : Traced (EmbeddingResponse * option error) :=
  {| value := Service.Embed (service e) ctx (provider e) (model e) request;
     trace := [ {| call_ctx := ctx; call_provider := provider e;
                   call_model := model e; call_request := request |} ] |}.

(** The type switch of [Embed]: the text assigned to [textContent], or
    [None] in the [default] case. *)
Definition textContent (content : any) : option string :=
  match content with
  | string_any c => Some c
  | bytes_any c => Some (string_of_bytes c)
  | Stringer_any c => Some c
  | _ => None
  end.

Definition Embed (e : t) (ctx : Context) (content : any)
  : Traced (slice float64 * option error) :=
  match textContent content with
  | None => mret (None, Some (errorString "unsupported content type"))
  | Some textContent =>
      let request :=
        {| Input := textContent; Model := "";
           EmbeddingRequest_Metadata := ∅ |} in
      '(response, err) ← service_Embed e ctx request;
      match err with
      | Some err => mret (None, Some (Errorf_w "failed to get embedding: " err))
      | None =>
          if decide ((dimensions e > 0)%Z ∧ len (Embedding response) ≠ dimensions e)
          then
            mret (None,
                  Some (errorString
                          ("expected embedding dimension " +:+ fmt_d (dimensions e)
                           +:+ ", got " +:+ fmt_d (len (Embedding response)))))
          else mret (Embedding response, None)
      end
  end.

(** The memory one [BatchEmbed] call shares with its workers. *)
Record batch : Type := {
  results : list (slice float64);
  errs : list (option error);
  workers : list worker;
  semaphore : nat;   (* permits held: elements in the channel's buffer *)
  done_ch : nat;     (* completions sent and not yet received *)
  received : nat;    (* iterations of the caller's wait loop so far *)
  calls : list EmbedCall;
}.

Definition with_worker (idx : nat) (w : worker) (s : batch) : batch :=
  {| results := results s; errs := errs s;
     workers := <[idx := w]> (workers s);
     semaphore := semaphore s; done_ch := done_ch s;
     received := received s; calls := calls s |}.

(** One step.  [Work idx] is the goroutine body between the acquire and
    the deferred function: [errs[idx] = err] on failure, else
    [results[idx] = embedding].  The call of [Embed] and the store are one
    step: [Embed] reads nothing the other workers write, and each worker
    writes only the slots of its own index. *)
Definition step (e : t) (ctx : Context) (contents : list any)
    (ev : event) (s : batch) : batch :=
  match ev with
  | Acquire idx =>
      with_worker idx Holding
        {| results := results s; errs := errs s; workers := workers s;
           semaphore := semaphore s + 1; done_ch := done_ch s;
           received := received s; calls := calls s |}
  | Work idx =>
      match contents !! idx with
      | None => s
      | Some c =>
          let r := Embed e ctx c in
          with_worker idx Stored
            match value r with
            | (_, Some err) =>
                {| results := results s; errs := <[idx := Some err]> (errs s);
                   workers := workers s; semaphore := semaphore s;
                   done_ch := done_ch s; received := received s;
                   calls := calls s ++ trace r |}
            | (embedding, None) =>
                {| results := <[idx := embedding]> (results s); errs := errs s;
                   workers := workers s; semaphore := semaphore s;
                   done_ch := done_ch s; received := received s;
                   calls := calls s ++ trace r |}
            end
      end
  | Exit idx =>
      with_worker idx Exited
        {| results := results s; errs := errs s; workers := workers s;
           semaphore := semaphore s - 1; done_ch := done_ch s + 1;
           received := received s; calls := calls s |}
  | Recv =>
      {| results := results s; errs := errs s; workers := workers s;
         semaphore := semaphore s; done_ch := done_ch s - 1;
         received := received s + 1; calls := calls s |}
  end.

(** Which steps are not blocked: a send on [semaphore] needs room in its
    buffer of capacity [cap] (with [cap = 0] it needs a receiver, and
    the only receives are in deferred functions of workers that already
    sent); a receive on [done] needs a buffered completion. *)
Definition can_fire (cap : nat) (s : batch) (ev : event) : bool :=
  match ev with
  | Acquire idx =>
      bool_decide (workers s !! idx = Some Waiting) && (semaphore s <? cap)
  | Work idx => bool_decide (workers s !! idx = Some Holding)
  | Exit idx => bool_decide (workers s !! idx = Some Stored)
  | Recv => 0 <? done_ch s
  end.

Definition all_events (n : nat) : list event :=
  Recv :: flat_map (λ idx, [Acquire idx; Work idx; Exit idx]) (seq 0 n).

Definition enabled (cap : nat) (s : batch) : list event :=
  filter (λ ev, can_fire cap s ev = true) (all_events (length (workers s))).

(** The scheduler: at each step [sched] picks one of the enabled steps;
    the run stops when none is. *)
Fixpoint run (cap : nat) (e : t) (ctx : Context) (contents : list any)
    (fuel : nat) (sched : list nat) (s : batch) : batch :=
  match fuel with
  | 0 => s
  | Datatypes.S fuel' =>
      let evs := enabled cap s in
      match evs !! (hd 0 sched `mod` length evs) with
      | None => s
      | Some ev => run cap e ctx contents fuel' (tl sched) (step e ctx contents ev s)
      end
  end.

(** [for _, err := range errs { if err != nil { return ... } }] *)
Fixpoint first_error (errs : list (option error)) : option error :=
  match errs with
  | [] => None
  | Some err :: _ => Some err
  | None :: errs' => first_error errs'
  end.

Definition start (contents : list any) : batch :=
  {| results := replicate (length contents) None;
     errs := replicate (length contents) None;
     workers := replicate (length contents) Waiting;
     semaphore := 0; done_ch := 0; received := 0; calls := [] |}.

(** [BatchEmbed] under the schedule [sched].  Every worker takes four
    steps at most, counting the receipt of its completion, so
    [4 * len(contents)] steps exhaust any run (see [run_exhausts]). *)
Definition BatchEmbed (sched : list nat) (e : t) (ctx : Context)
    (contents : list any)
  : outcome (Traced (slice (slice float64) * option error)) :=
  if decide (maxPoolSize e < 0)%Z then
    Panicked "makechan: size out of range"
  else
    let s := run (Z.to_nat (maxPoolSize e)) e ctx contents
                 (4 * length contents) sched (start contents) in
    if decide (received s = length contents) then
      Returned
        {| value :=
             match first_error (errs s) with
             | Some err =>
                 (None, Some (Errorf_w "batch embedding failed: " err))
             | None => (Some (results s), None)
             end;
           trace := calls s |}
    else Blocked.


(** *** Bookkeeping for the proofs about [run] *)

(** What the worker of item [c] leaves in its slots of [results] and
    [errs]. *)
Definition stored_result (e : t) (ctx : Context) (c : any) : slice float64 :=
  match value (Embed e ctx c) with
  | (_, Some _) => None
  | (embedding, None) => embedding
  end.

Definition stored_err (e : t) (ctx : Context) (c : any) : option error :=
  (value (Embed e ctx c)).2.

Fixpoint weight (w : worker → nat) (ws : list worker) : nat :=
  match ws with
  | [] => 0
  | x :: ws' => w x + weight w ws'
  end.

(** Steps a worker still has to take, the receipt of its completion
    included. *)
Definition rank (w : worker) : nat :=
  match w with Waiting => 4 | Holding => 3 | Stored => 2 | Exited => 0 end.

Definition holds (w : worker) : nat :=
  match w with Holding | Stored => 1 | _ => 0 end.

Definition exited (w : worker) : nat :=
  match w with Exited => 1 | _ => 0 end.

Definition has_stored (w : worker) : bool :=
  match w with Stored | Exited => true | _ => false end.

Definition steps_left (s : batch) : nat :=
  weight rank (workers s) + done_ch s.

(** What holds of the shared memory at every point of a run. *)
Record batch_inv (cap : nat) (e : t) (ctx : Context) (contents : list any)
    (s : batch) : Prop := {
  inv_results : length (results s) = length contents;
  inv_errs : length (errs s) = length contents;
  inv_workers : length (workers s) = length contents;
  inv_semaphore : semaphore s = weight holds (workers s);
  inv_cap : semaphore s ≤ cap;
  inv_done : done_ch s + received s = weight exited (workers s);
  inv_slots : ∀ idx w c,
    workers s !! idx = Some w → contents !! idx = Some c →
    results s !! idx
    = Some (if has_stored w then stored_result e ctx c else None)
    ∧ errs s !! idx
      = Some (if has_stored w then stored_err e ctx c else None);
}.

End WithService.
End LLMEmbedder.

Arguments LLMEmbedder.t : clear implicits.

(** ** Test doubles (from the package's tests) *)

Record mockProvider : Type := {
  mock_name : string;
  mock_models : slice ModelInfo;
  mock_embedFunc :
    option (Context → string → EmbeddingRequest → EmbeddingResponse * option error);
  mock_chatFunc :
    option (Context → string → ChatRequest → ChatResponse * option error);
}.

Fixpoint mockProvider_GetModel (models : list ModelInfo) (modelID : string)
  : ModelInfo * option error :=
  match models with
  | [] => (ModelInfo_zero, Some (errorString ("model " +:+ modelID +:+ " not found")))
  | model :: models' =>
      if decide (ModelInfo_Name model = modelID) then (model, None)
      else mockProvider_GetModel models' modelID
  end.

(** [&mockProvider{...}] seen through the [Provider] interface. *)
Definition mockProvider_Provider (m : mockProvider) : Provider.t :=
  {| Provider.Name := mock_name m;
     Provider.ListModels := λ _, (mock_models m, None);
     Provider.GetModel := λ _ modelID,
       mockProvider_GetModel (default [] (mock_models m)) modelID;
     Provider.Complete := λ _ _ _, (CompletionResponse_zero, None);
     Provider.Chat := λ ctx modelID request,
       match mock_chatFunc m with
       | Some chatFunc => chatFunc ctx modelID request
       | None => (ChatResponse_zero, None)
       end;
     Provider.Embed := λ ctx modelID request,
       match mock_embedFunc m with
       | Some embedFunc => embedFunc ctx modelID request
       | None => (EmbeddingResponse_zero, None)
       end;
     Provider.GetEmbedModel := "mock-embed-model" |}.

(** A provider whose backend cannot be reached: every call fails. *)
Definition unreachableProvider (name : string) : Provider.t :=
  let err := errorString "connection refused" in
  {| Provider.Name := name;
     Provider.ListModels := λ _, (None, Some err);
     Provider.GetModel := λ _ _, (ModelInfo_zero, Some err);
     Provider.Complete := λ _ _ _, (CompletionResponse_zero, Some err);
     Provider.Chat := λ _ _ _, (ChatResponse_zero, Some err);
     Provider.Embed := λ _ _ _, (EmbeddingResponse_zero, Some err);
     Provider.GetEmbedModel := "" |}.

Record mockService : Type := {
  embedFunc :
    option (Context → string → string → EmbeddingRequest →
            EmbeddingResponse * option error);
}.

#[export] Instance mockService_Service : Service.t mockService := {
  Service.RegisterProvider := λ m _, (m, None);
  Service.GetProvider := λ _ _, (None, None);
  Service.ListProviders := λ _ _, None;
  Service.ListModels := λ _ _ _ _, (None, None);
  Service.GetModel := λ _ _ _ _, (ModelInfo_zero, None);
  Service.Complete := λ _ _ _ _ _, (CompletionResponse_zero, None);
  Service.Chat := λ _ _ _ _ _, (ChatResponse_zero, None);
  Service.Embed := λ m ctx provider model request,
    match embedFunc m with
    | Some f => f ctx provider model request
    | None => (EmbeddingResponse_zero, None)
    end;
}.

Definition model_named (name : string) (window : Z) : ModelInfo :=
  {| ModelInfo_Name := name; ContextWindowSize := window; MaxOutputTokens := 0;
     SupportsImageInput := false; SupportsAudioInput := false;
     SupportsVisionOutput := false;
     PricingPerInputToken := 0%float; PricingPerOutputToken := 0%float |}.

Definition provider1 : Provider.t :=
  mockProvider_Provider
    {| mock_name := "provider1";
       mock_models := Some [model_named "model1" 1024; model_named "model2" 2048];
       mock_embedFunc := None; mock_chatFunc := None |}.

Definition provider2 : Provider.t :=
  mockProvider_Provider
    {| mock_name := "provider2";
       mock_models := Some [model_named "model3" 4096];
       mock_embedFunc := None; mock_chatFunc := None |}.

(** A second provider that also calls itself "provider1". *)
Definition provider1' : Provider.t :=
  mockProvider_Provider
    {| mock_name := "provider1"; mock_models := None;
       mock_embedFunc := None; mock_chatFunc := None |}.

Definition unnamed_provider : Provider.t :=
  mockProvider_Provider
    {| mock_name := ""; mock_models := None;
       mock_embedFunc := None; mock_chatFunc := None |}.

(** The registry after registering the values of [ps], in order. *)
Definition registry_of (ps : list Provider.t) : service.t :=
  foldl (λ s p, (service.RegisterProvider s (Some p)).1) service.NewService ps.

(** [expectedEmbedding] of the embedder's tests, a literal of binary64
    values. *)
Definition expectedEmbedding : slice float64 :=
  Some [0x1.999999999999ap-4%float; 0x1.999999999999ap-3%float;
        0x1.3333333333333p-2%float].

(** [EmbeddingResponse{Embedding: embedding}] *)
Definition response_of (embedding : slice float64) : EmbeddingResponse :=
  {| Embedding := embedding; EmbeddingResponse_Usage := Usage_zero;
     EmbeddingResponse_Metadata := ∅ |}.

Definition mockSvc (embedding : slice float64) : mockService :=
  {| embedFunc := Some (λ _ _ _ _, (response_of embedding, None)) |}.

(** A service whose backend fails on every request. *)
Definition failingSvc : mockService :=
  {| embedFunc := Some (λ _ _ _ _,
       (EmbeddingResponse_zero, Some (errorString "connection refused"))) |}.

(** A service that answers each request on its own terms: an embedding as
    long as the input text, and a failure on the empty text. *)
Definition lengthSvc : mockService :=
  {| embedFunc := Some (λ _ _ _ request,
       if decide (Input request = "") then
         (EmbeddingResponse_zero, Some (errorString "empty input"))
       else
         (response_of (Some (replicate (String.length (Input request)) 1%float)),
          None)) |}.

(** ** Numbers of other widths *)

(** Go's [int] is 64 bits wide here: a sum wraps around. *)
Definition int_wrap (z : Z) : Z :=
  ((z + 2 ^ 63) `mod` 2 ^ 64 - 2 ^ 63)%Z.

Definition int_add (a b : Z) : Z := int_wrap (a + b).

(** [len(s)] of a string: its number of bytes. *)
Definition len_string (s : string) : Z := Z.of_nat (String.length s).

(** A [float32] is a binary32 value (24 bits of precision, infinities at
    exponent 128), and the conversion [float32(v)] rounds a binary64 to
    the nearest one, ties to even, overflowing to an infinity. *)
Definition float32 : Set := SpecFloat.spec_float.

Definition float32_of_float64 (v : float64) : float32 :=
  match FloatOps.Prim2SF v with
  | SpecFloat.S754_finite s m e => SpecFloat.binary_round 24 128 s m e
  | x => x
  end.

(** [append(s, x)], which allocates when [s] is nil. *)
Definition append {A : Type} (s : slice A) (x : A) : slice A :=
  Some (default [] s ++ [x]).

(** ** The Ollama client (package [api], outside this repository)

    The client is a parameter of the provider: what is kept of its types
    are the fields the provider reads or sets.  A streaming call
    ([Generate], [Chat]) is the list of responses the client passes to
    the callback, in order, together with the error the call returns; the
    callbacks of this package always return nil, so they never stop the
    stream. *)
Module api.

Record ListModelResponse : Type := { ListModelResponse_Name : string }.

Record ListResponse : Type := { Models : slice ListModelResponse }.

(** The values the provider stores in an [Options] map. *)
Inductive option_value : Type :=
| float32_value (f : float32)
| strings_value (l : slice string).

Record GenerateRequest : Type := {
  GenerateRequest_Model : string;
  GenerateRequest_Prompt : string;
  GenerateRequest_Options : gmap string option_value;
}.

Record GenerateResponse : Type := {
  Response : string;
  GenerateResponse_PromptEvalCount : Z;
  GenerateResponse_EvalCount : Z;
}.

Record Message : Type := { Message_Role : string; Message_Content : string }.

Record ChatRequest : Type := {
  ChatRequest_Model : string;
  ChatRequest_Messages : slice Message;
  ChatRequest_Options : gmap string option_value;
}.

Record ChatResponse : Type := {
  ChatResponse_Message : Message;
  ChatResponse_PromptEvalCount : Z;
  ChatResponse_EvalCount : Z;
}.

Definition ChatResponse_zero : ChatResponse :=
  {| ChatResponse_Message := {| Message_Role := ""; Message_Content := "" |};
     ChatResponse_PromptEvalCount := 0; ChatResponse_EvalCount := 0 |}.

Record EmbeddingRequest : Type := {
  EmbeddingRequest_Model : string;
  EmbeddingRequest_Prompt : string;
}.

Record EmbeddingResponse : Type := { EmbeddingResponse_Embedding : slice float64 }.

Record Client : Type := {
  List : Context → ListResponse * option error;
  Generate : Context → GenerateRequest → list GenerateResponse * option error;
  Chat : Context → ChatRequest → list ChatResponse * option error;
  Embeddings : Context → EmbeddingRequest → EmbeddingResponse * option error;
}.

End api.

(** ** The Ollama provider *)

Module OllamaProvider.

(** [const embedModel] *)
Definition embedModel_const : string := "mxbai-embed-large".

Record t : Type := { embedModel : string; client : api.Client }.

Definition Name (p : t) : string := "ollama".

Definition GetEmbedModel (p : t) : string := embedModel p.

(** The [ModelInfo] literal of [ListModels] and [GetModel]. *)
Definition default_info (name : string) : ModelInfo :=
  {| ModelInfo_Name := name; ContextWindowSize := 4096; MaxOutputTokens := 2048;
     SupportsImageInput := false; SupportsAudioInput := false;
     SupportsVisionOutput := false;
     PricingPerInputToken := 0%float; PricingPerOutputToken := 0%float |}.

Definition ListModels (p : t) (ctx : Context) : slice ModelInfo * option error :=
  match api.List (client p) ctx with
  | (_, Some err) => (None, Some (Errorf_w "failed to list models: " err))
  | (models, None) =>
      (foldl (λ modelInfos model,
                append modelInfos (default_info (api.ListModelResponse_Name model)))
             None (default [] (api.Models models)),
       None)
  end.

Definition GetModel (p : t) (ctx : Context) (modelID : string)
  : ModelInfo * option error :=
  (default_info modelID, None).

(** The [options] map [Complete] and [Chat] both start with. *)
Definition options_of (temperature topP : float64) (stop : slice string)
  : gmap string api.option_value :=
  let options : gmap string api.option_value :=
    <["top_p" := api.float32_value (float32_of_float64 topP)]>
      (<["temperature" := api.float32_value (float32_of_float64 temperature)]> ∅) in
  if decide (len stop > 0)%Z
  then <["stop" := api.strings_value stop]> options
  else options.

Definition Complete (p : t) (ctx : Context) (modelID : string)
    (request : CompletionRequest) : CompletionResponse * option error :=
  let options :=
    options_of (CompletionRequest_Temperature request)
               (CompletionRequest_TopP request) (CompletionRequest_Stop request) in
  let generateRequest :=
    {| api.GenerateRequest_Model := modelID;
       api.GenerateRequest_Prompt := Prompt request;
       api.GenerateRequest_Options := options |} in
  let '(responses, err) := api.Generate (client p) ctx generateRequest in
  let '(finalResponse, promptEvalCount, evalCount) :=
    foldl (λ '(finalResponse, _, _) response,
             (finalResponse +:+ api.Response response,
              api.GenerateResponse_PromptEvalCount response,
              api.GenerateResponse_EvalCount response))
          ("", 0%Z, 0%Z) responses in
  match err with
  | Some err =>
      (CompletionResponse_zero,
       Some (Errorf_w "failed to generate completion: " err))
  | None =>
      ({| Text := finalResponse;
          CompletionResponse_Usage :=
            {| PromptTokens := promptEvalCount; CompletionTokens := evalCount;
               TotalTokens := int_add promptEvalCount evalCount |};
          CompletionResponse_Metadata := ∅;
          CompletionResponse_Timestamp := 0 |},
       None)
  end.

Definition Chat (p : t) (ctx : Context) (modelID : string)
    (request : ChatRequest) : ChatResponse * option error :=
  let messages :=
    Some ((λ msg, {| api.Message_Role := Role msg;
                     api.Message_Content := Content msg |})
            <$> default [] (Messages request)) in
  let options :=
    options_of (ChatRequest_Temperature request)
               (ChatRequest_TopP request) (ChatRequest_Stop request) in
  let chatRequest :=
    {| api.ChatRequest_Model := modelID;
       api.ChatRequest_Messages := messages;
       api.ChatRequest_Options := options |} in
  let '(responses, err) := api.Chat (client p) ctx chatRequest in
  let '(responseContent, finalResponse) :=
    foldl (λ '(responseContent, _) response,
             (responseContent
                +:+ api.Message_Content (api.ChatResponse_Message response),
              response))
          ("", api.ChatResponse_zero) responses in
  match err with
  | Some err =>
      (ChatResponse_zero,
       Some (Errorf_w "failed to generate chat response: " err))
  | None =>
      let content :=
        if decide (api.Message_Content (api.ChatResponse_Message finalResponse) = "")
        then responseContent
        else api.Message_Content (api.ChatResponse_Message finalResponse) in
      ({| ChatResponse_Message :=
            {| Role := api.Message_Role (api.ChatResponse_Message finalResponse);
               Content := content; Message_Name := ""; Message_Context := ∅ |};
          ChatResponse_Usage :=
            {| PromptTokens := api.ChatResponse_PromptEvalCount finalResponse;
               CompletionTokens := api.ChatResponse_EvalCount finalResponse;
               TotalTokens :=
                 int_add (api.ChatResponse_PromptEvalCount finalResponse)
                         (api.ChatResponse_EvalCount finalResponse) |};
          ChatResponse_Metadata := ∅;
          ChatResponse_Timestamp := 0 |},
       None)
  end.

Definition Embed (p : t) (ctx : Context) (modelID : string)
    (request : EmbeddingRequest) : EmbeddingResponse * option error :=
  let embedRequest :=
    {| api.EmbeddingRequest_Model := modelID;
       api.EmbeddingRequest_Prompt := Input request |} in
  match api.Embeddings (client p) ctx embedRequest with
  | (_, Some err) =>
      (EmbeddingResponse_zero,
       Some (Errorf_w "failed to generate embeddings: " err))
  | (response, None) =>
      ({| Embedding := api.EmbeddingResponse_Embedding response;
          EmbeddingResponse_Usage :=
            {| PromptTokens := len_string (Input request); CompletionTokens := 0;
               TotalTokens := len_string (Input request) |};
          EmbeddingResponse_Metadata := ∅ |},
       None)
  end.

(** [*OllamaProvider] seen through the [Provider] interface. *)
Definition as_Provider (p : t) : Provider.t :=
  {| Provider.Name := Name p;
     Provider.ListModels := ListModels p;
     Provider.GetModel := GetModel p;
     Provider.Complete := Complete p;
     Provider.Chat := Chat p;
     Provider.Embed := Embed p;
     Provider.GetEmbedModel := GetEmbedModel p |}.

Section constructor.

(** [url.Parse] and [api.NewClient(endpointURL, http.DefaultClient)]. *)
Variable URL : Type.
Variable url_Parse : string → URL * option error.
Variable api_NewClient : URL → api.Client.

Definition NewOllamaProvider (endpoint : string)
  : option Provider.t * option error :=
  match url_Parse endpoint with
  | (_, Some err) => (None, Some (Errorf_w "invalid endpoint URL: " err))
  | (endpointURL, None) =>
      (Some (as_Provider {| embedModel := embedModel_const;
                            client := api_NewClient endpointURL |}),
       None)
  end.

End constructor.

End OllamaProvider.

(** ** The adapter ([LLMAdapter]) and the embedding functions *)

Module LLMAdapter.

(** An adapter around a nil provider panics in both methods; the record
    holds a provider that is not nil. *)
Record t : Type := { provider : Provider.t; model : string }.

Definition NewLLMAdapter (provider : Provider.t) (model : string) : t :=
  {| provider := provider; model := model |}.

Definition Complete (a : t) (ctx : Context) (prompt : string)
  : string * option error :=
  let request :=
    {| Prompt := prompt; CompletionRequest_MaxTokens := 2000;
       CompletionRequest_Temperature := 0x1.6666666666666p-1%float;
       CompletionRequest_TopP := 0%float;
       CompletionRequest_FrequencyPenalty := 0%float;
       CompletionRequest_PresencePenalty := 0%float;
       CompletionRequest_Stop := None;
       CompletionRequest_Metadata := ∅ |} in
  match Provider.Complete (provider a) ctx (model a) request with
  | (_, Some err) => ("", Some (Errorf_w "failed to complete text: " err))
  | (response, None) => (Text response, None)
  end.

Definition Embed (a : t) (ctx : Context) (text : string)
  : slice float32 * option error :=
  let request :=
    {| Input := text; Model := ""; EmbeddingRequest_Metadata := ∅ |} in
  match Provider.Embed (provider a) ctx (model a) request with
  | (_, Some err) => (None, Some (Errorf_w "failed to generate embedding: " err))
  | (response, None) =>
      (Some (float32_of_float64 <$> default [] (Embedding response)), None)
  end.

End LLMAdapter.



(** *** A scripted client, for examples *)

(** A client that streams the given texts, the last response carrying
    the counts, and embeds any prompt as [embedding]. *)
Definition scripted_client (texts : list string) (promptEval eval : Z)
    (embedding : slice float64) (failure : option error) : api.Client :=
  {| api.List := λ _,
       ({| api.Models := Some [ {| api.ListModelResponse_Name := "qwen2.5" |};
                                {| api.ListModelResponse_Name := "mxbai-embed-large" |} ] |},
        failure);
     api.Generate := λ _ _,
       ((λ text, {| api.Response := text;
                    api.GenerateResponse_PromptEvalCount := promptEval;
                    api.GenerateResponse_EvalCount := eval |}) <$> texts,
        failure);
     api.Chat := λ _ _,
       ((λ text, {| api.ChatResponse_Message :=
                      {| api.Message_Role := "assistant"; api.Message_Content := text |};
                    api.ChatResponse_PromptEvalCount := promptEval;
                    api.ChatResponse_EvalCount := eval |}) <$> texts,
        failure);
     api.Embeddings := λ _ _,
       ({| api.EmbeddingResponse_Embedding := embedding |}, failure) |}.

Definition scripted_ollama (texts : list string) (failure : option error)
  : OllamaProvider.t :=
  {| OllamaProvider.embedModel := OllamaProvider.embedModel_const;
     OllamaProvider.client := scripted_client texts 7 11 expectedEmbedding failure |}.

(** *** Vocabulary for the statements below *)

(** The strings of [l] one after the other. *)
Definition join (l : list string) : string := foldr String.append "" l.

(** The service calls of the workers that have made theirs, worker by
    worker. *)
Definition issued {S : Type} `{!Service.t S} (e : LLMEmbedder.t S)
    (ctx : Context) (ws : list worker) (contents : list any) : list EmbedCall :=
  mjoin (zip_with (λ w c, if LLMEmbedder.has_stored w
                          then trace (LLMEmbedder.Embed e ctx c) else [])
                  ws contents).

(** The request [Embed] sends for a text. *)
Definition request_for {S : Type} `{!Service.t S} (e : LLMEmbedder.t S)
    (ctx : Context) (text : string) : EmbedCall :=
  {| call_ctx := ctx; call_provider := LLMEmbedder.provider e;
     call_model := LLMEmbedder.model e;
     call_request := {| Input := text; Model := "";
                        EmbeddingRequest_Metadata := ∅ |} |}.

(** * Properties *)

(** ** Map iteration visits every entry exactly once *)

Lemma shuffle_Permutation {A : Type} (rnd : list nat) (l : list A) :
  shuffle rnd l ≡ₚ l.
Proof.
  revert l. induction rnd as [|r rnd IH]; intros l; simpl; [done|].
  destruct (l !! (r `mod` length l)) as [x|] eqn:Hx; [|done].
  rewrite IH. symmetry. by apply delete_Permutation.
Qed.

(** Every order is one [shuffle] can produce. *)
Lemma shuffle_complete {A : Type} (l k : list A) :
  k ≡ₚ l → ∃ rnd, shuffle rnd l = k.
Proof.
  revert l. induction k as [|x k IH]; intros l Hperm.
  - apply Permutation_nil_l in Hperm as ->. by exists [].
  - assert (x ∈ l) as Hin by (rewrite <-Hperm; left).
    apply list_elem_of_lookup in Hin as [i Hi].
    assert (i < length l) as Hlt by (by eapply lookup_lt_Some).
    destruct (IH (delete i l)) as [rnd Hrnd].
    { apply (inj (cons x)). by rewrite Hperm, <-delete_Permutation. }
    exists (i :: rnd). simpl.
    rewrite Nat.mod_small by done. by rewrite Hi, Hrnd.
Qed.

Lemma range_map_Permutation {V : Type} (rnd : list nat) (m : gmap string V) :
  range_map rnd m ≡ₚ map_to_list m.
Proof. apply shuffle_Permutation. Qed.

Lemma range_map_NoDup_keys {V : Type} (rnd : list nat) (m : gmap string V) :
  NoDup (range_map rnd m).*1.
Proof. rewrite range_map_Permutation. apply NoDup_fst_map_to_list. Qed.

Lemma elem_of_range_map {V : Type} (rnd : list nat) (m : gmap string V) k v :
  (k, v) ∈ range_map rnd m ↔ m !! k = Some v.
Proof. rewrite range_map_Permutation. apply elem_of_map_to_list. Qed.

Lemma range_map_to_map {V : Type} (rnd : list nat) (m : gmap string V) :
  list_to_map (range_map rnd m) = m.
Proof.
  rewrite (list_to_map_proper _ (map_to_list m)).
  - apply list_to_map_to_list.
  - apply range_map_NoDup_keys.
  - apply range_map_Permutation.
Qed.

(** Assigning the entries of a list without repeated keys, one by one. *)
Lemma foldl_insert_lookup {V : Type} (l : list (string * V))
    (acc : gmap string V) (k : string) :
  NoDup l.*1 →
  foldl (λ m entry, <[entry.1 := entry.2]> m) acc l !! k
  = match (list_to_map l : gmap string V) !! k with
    | Some v => Some v
    | None => acc !! k
    end.
Proof.
  revert acc. induction l as [|[k' v'] l IH]; intros acc Hnd; simpl.
  - by rewrite lookup_empty.
  - apply NoDup_cons in Hnd as [Hk' Hnd]. rewrite IH by done.
    destruct (decide (k' = k)) as [->|Hne].
    + rewrite (proj1 (not_elem_of_list_to_map l k)) by done.
      by rewrite !lookup_insert_eq.
    + by rewrite !lookup_insert_ne by done.
Qed.

(** ** The registry *)

Section registry.

Implicit Types (s : service.t) (p : Provider.t) (name : string).

(** The copy [ListModels] takes under the read lock is the map itself. *)
Lemma snapshot_eq rnd s : service.snapshot rnd s = service.providers s.
Proof.
  apply map_eq. intros k. unfold service.snapshot.
  rewrite foldl_insert_lookup by apply range_map_NoDup_keys.
  rewrite range_map_to_map, lookup_empty. by destruct (_ !! k).
Qed.

Lemma foldl_append_keys (l : list (string * Provider.t)) (acc : list string) :
  foldl (λ providers entry, providers ++ [entry.1]) acc l = acc ++ l.*1.
Proof.
  revert acc. induction l as [|x l IH]; intros acc; simpl.
  - by rewrite app_nil_r.
  - by rewrite IH, <-app_assoc.
Qed.

Lemma ListProviders_eq rnd s :
  service.ListProviders rnd s
  = Some (range_map rnd (service.providers s)).*1.
Proof. unfold service.ListProviders. by rewrite foldl_append_keys. Qed.

Lemma elem_of_ListProviders rnd s name :
  name ∈ default [] (service.ListProviders rnd s)
  ↔ is_Some (service.providers s !! name).
Proof.
  rewrite ListProviders_eq. simpl. rewrite list_elem_of_fmap. split.
  - intros [[k v] [-> Hin]]. apply elem_of_range_map in Hin. by exists v.
  - intros [v Hv]. exists (name, v). split; [done|].
    by apply elem_of_range_map.
Qed.

(** What [RegisterProvider] does to the map, case by case. *)
Lemma RegisterProvider_providers s provider :
  service.providers (service.RegisterProvider s provider).1
  = match provider with
    | Some p =>
        if decide (Provider.Name p = "") then service.providers s
        else match service.providers s !! Provider.Name p with
             | Some _ => service.providers s
             | None => <[Provider.Name p := p]> (service.providers s)
             end
    | None => service.providers s
    end.
Proof.
  unfold service.RegisterProvider. destruct provider as [p|]; [|done].
  destruct (decide _); [done|]. by destruct (_ !! _).
Qed.

(** An entry, once in the map, is there for good. *)
Lemma RegisterProvider_keeps s provider name p :
  service.providers s !! name = Some p →
  service.providers (service.RegisterProvider s provider).1 !! name = Some p.
Proof.
  intros Hp. rewrite RegisterProvider_providers.
  destruct provider as [q|]; [|done].
  destruct (decide _); [done|].
  destruct (service.providers s !! Provider.Name q) eqn:Hq; [done|].
  rewrite lookup_insert_ne; [done|]. congruence.
Qed.

(** Keys are the names of the providers under them, and never empty. *)
Lemma reachable_keys s :
  service.reachable s →
  ∀ name p, service.providers s !! name = Some p →
            Provider.Name p = name ∧ name ≠ "".
Proof.
  induction 1 as [|s provider Hs IH]; intros name p.
  - simpl. by rewrite lookup_empty.
  - rewrite RegisterProvider_providers.
    destruct provider as [q|]; [|by apply IH].
    destruct (decide _) as [|Hne]; [by apply IH|].
    destruct (service.providers s !! Provider.Name q) eqn:Hq; [by apply IH|].
    destruct (decide (Provider.Name q = name)) as [<-|Hname].
    + rewrite lookup_insert_eq. by intros [= <-].
    + rewrite lookup_insert_ne by done. by apply IH.
Qed.

Lemma registry_of_reachable (ps : list Provider.t) :
  service.reachable (registry_of ps).
Proof.
  unfold registry_of. generalize service.reachable_new.
  generalize service.NewService.
  induction ps as [|p ps IH]; intros s Hs; [done|].
  apply IH, (service.reachable_register _ (Some p) Hs).
Qed.

(** The second loop of [ListModels] over entries that all succeed. *)
Lemma ListModels_loop_ok ctx (entries : list (string * Provider.t)) result :
  Forall (λ entry, (Provider.ListModels entry.2 ctx).2 = None) entries →
  service.ListModels_loop ctx entries result
  = (Some (foldl (λ m entry, <[entry.1 := entry.2]> m) result
                 (prod_map id (λ p, (Provider.ListModels p ctx).1) <$> entries)),
     None).
Proof.
  revert result. induction entries as [|[name p] entries IH];
    intros result Hall; simpl; [done|].
  apply Forall_cons in Hall as [Hp Hall]. simpl in Hp.
  destruct (Provider.ListModels p ctx) as [models err]. simpl in *.
  subst err. by rewrite IH.
Qed.

(** The second loop stops at the first entry whose listing fails. *)
Lemma ListModels_loop_fail ctx (before after : list (string * Provider.t))
    name p err result :
  Forall (λ entry, (Provider.ListModels entry.2 ctx).2 = None) before →
  (Provider.ListModels p ctx).2 = Some err →
  service.ListModels_loop ctx (before ++ (name, p) :: after) result
  = (None,
     Some (Errorf_w ("failed to list models for provider " +:+ name +:+ ": ") err)).
Proof.
  revert result. induction before as [|[k q] before IH];
    intros result Hall Hp; simpl.
  - destruct (Provider.ListModels p ctx) as [models err']. simpl in Hp.
    by subst err'.
  - apply Forall_cons in Hall as [Hq Hall]. simpl in Hq.
    destruct (Provider.ListModels q ctx) as [models err']. simpl in Hq.
    subst err'. by apply IH.
Qed.

(** A list with a failing entry has a first one. *)
Lemma first_failing ctx (entries : list (string * Provider.t)) :
  Exists (λ entry, (Provider.ListModels entry.2 ctx).2 ≠ None) entries →
  ∃ before name p err after,
    entries = before ++ (name, p) :: after ∧
    Forall (λ entry, (Provider.ListModels entry.2 ctx).2 = None) before ∧
    (Provider.ListModels p ctx).2 = Some err.
Proof.
  induction entries as [|[k q] entries IH]; intros Hex.
  - by apply Exists_nil in Hex.
  - destruct ((Provider.ListModels q ctx).2) as [err|] eqn:Hq.
    + by exists [], k, q, err, entries.
    + apply Exists_cons in Hex as [Hex|Hex]; [simpl in Hex; congruence|].
      destruct (IH Hex) as (before & name & p & err & after & -> & Hall & Hp).
      exists ((k, q) :: before), name, p, err, after.
      split_and!; [done| |done]. by constructor.
Qed.

End registry.

(** C7.  For every registry state, [RegisterProvider] called with a nil
    provider, or with one whose [Name()] is the empty string, fails with
    the error the specification calls InvalidArgument ("provider cannot be
    nil", respectively "provider name cannot be empty") and leaves the
    registry, hence its name-to-provider map, exactly as it was. *)
Theorem RegisterProvider_invalid_argument
    (s : service.t) (provider : option Provider.t) :
  (∀ p, provider = Some p → Provider.Name p = "") →
  service.RegisterProvider s provider
  = (s, Some (errorString match provider with
                          | None => "provider cannot be nil"
                          | Some _ => "provider name cannot be empty"
                          end))
  ∧ service.providers (service.RegisterProvider s provider).1
    = service.providers s.
Proof.
  intros Hname. unfold service.RegisterProvider.
  destruct provider as [p|]; [|done].
  rewrite decide_True by (by apply Hname). done.
Qed.

Lemma RegisterProvider_invalid_argument_witness :
  (service.RegisterProvider (registry_of [provider1]) None
   = (registry_of [provider1], Some (errorString "provider cannot be nil"))
   ∧ service.providers (service.RegisterProvider (registry_of [provider1]) None).1
     = service.providers (registry_of [provider1]))
  ∧ (service.RegisterProvider (registry_of [provider1]) (Some unnamed_provider)
     = (registry_of [provider1],
        Some (errorString "provider name cannot be empty"))
     ∧ service.providers
         (service.RegisterProvider (registry_of [provider1])
                                   (Some unnamed_provider)).1
       = service.providers (registry_of [provider1])).
Proof.
  split.
  - apply (RegisterProvider_invalid_argument (registry_of [provider1]) None).
    intros p H. discriminate H.
  - apply (RegisterProvider_invalid_argument (registry_of [provider1])
                                             (Some unnamed_provider)).
    intros p H. injection H as <-. reflexivity.
Defined.

(** C8.  In a registry where [GetProvider] finds a provider under some
    name, [RegisterProvider] with a provider of that name fails with the
    error the specification calls AlreadyRegistered and returns the
    registry unchanged, and [GetProvider] still returns the original
    instance.  No call of [RegisterProvider], whatever its argument,
    replaces an entry, and [ListProviders] never lists a name twice: there
    is at most one provider per name throughout. *)
Theorem RegisterProvider_duplicate
    (s : service.t) (p original : Provider.t) :
  service.reachable s →
  service.GetProvider s (Provider.Name p) = (Some original, None) →
  service.RegisterProvider s (Some p)
  = (s, Some (errorString ("provider " +:+ Provider.Name p +:+ " already registered")))
  ∧ service.GetProvider (service.RegisterProvider s (Some p)).1 (Provider.Name p)
    = (Some original, None)
  ∧ (∀ provider name q,
       service.GetProvider s name = (Some q, None) →
       service.GetProvider (service.RegisterProvider s provider).1 name
       = (Some q, None))
  ∧ (∀ provider rnd,
       ∃ names,
         service.ListProviders rnd (service.RegisterProvider s provider).1
         = Some names ∧ NoDup names).
Proof.
  intros Hs Hget.
  assert (∀ s' name q, service.GetProvider s' name = (Some q, None)
                       ↔ service.providers s' !! name = Some q) as Hlookup.
  { intros s' name q. unfold service.GetProvider.
    destruct (service.providers s' !! name); split; congruence. }
  apply Hlookup in Hget.
  assert (service.RegisterProvider s (Some p)
          = (s, Some (errorString ("provider " +:+ Provider.Name p
                                   +:+ " already registered")))) as Hreg.
  { unfold service.RegisterProvider.
    destruct (reachable_keys s Hs _ _ Hget) as [_ Hne].
    rewrite decide_False by done. by rewrite Hget. }
  split_and!.
  - done.
  - rewrite Hreg. by apply Hlookup.
  - intros provider name q Hq. apply Hlookup.
    apply RegisterProvider_keeps. by apply Hlookup.
  - intros provider rnd. eexists. split; [apply ListProviders_eq|].
    apply range_map_NoDup_keys.
Qed.

Lemma RegisterProvider_duplicate_witness :
  service.RegisterProvider (registry_of [provider1; provider2]) (Some provider1')
  = (registry_of [provider1; provider2],
     Some (errorString "provider provider1 already registered"))
  ∧ service.GetProvider
      (service.RegisterProvider (registry_of [provider1; provider2])
                                (Some provider1')).1 "provider1"
    = (Some provider1, None)
  ∧ (∀ provider name q,
       service.GetProvider (registry_of [provider1; provider2]) name
       = (Some q, None) →
       service.GetProvider
         (service.RegisterProvider (registry_of [provider1; provider2])
                                   provider).1 name
       = (Some q, None))
  ∧ (∀ provider rnd,
       ∃ names,
         service.ListProviders rnd
           (service.RegisterProvider (registry_of [provider1; provider2])
                                     provider).1
         = Some names ∧ NoDup names).
Proof.
  apply (RegisterProvider_duplicate (registry_of [provider1; provider2])
                                    provider1' provider1).
  - apply registry_of_reachable.
  - vm_compute. reflexivity.
Defined.

(** When every listing succeeds, [ListModels] returns the registry's map
    with every provider replaced by its model list. *)
Lemma ListModels_all_ok
    (rnd_copy rnd_call : list nat) (s : service.t) (ctx : Context) :
  (∀ name p, service.providers s !! name = Some p →
             (Provider.ListModels p ctx).2 = None) →
  service.ListModels rnd_copy rnd_call s ctx
  = (Some ((λ p, (Provider.ListModels p ctx).1) <$> service.providers s), None).
Proof.
  unfold service.ListModels. rewrite snapshot_eq.
  set (entries := range_map rnd_call (service.providers s)).
  intros Hall. rewrite ListModels_loop_ok.
  2: { apply Forall_forall. intros [name p] Hin.
       apply (Hall name p). by apply elem_of_range_map in Hin. }
  do 2 f_equal. apply map_eq. intros name.
  set (listed := prod_map id (λ p, (Provider.ListModels p ctx).1) <$> entries).
  assert (NoDup listed.*1) as Hnd.
  { unfold listed. rewrite <-list_fmap_compose.
    rewrite (list_fmap_ext _ fst entries) by (by intros ? [] ?).
    apply range_map_NoDup_keys. }
  rewrite foldl_insert_lookup, lookup_empty by done.
  unfold listed. rewrite list_to_map_fmap.
  unfold entries. rewrite range_map_to_map, lookup_fmap.
  by destruct (service.providers s !! name).
Qed.

(** [ListModels] fails at the first provider, in its iteration order,
    whose listing fails. *)
Lemma ListModels_first_failure
    (rnd_copy rnd_call : list nat) (s : service.t) (ctx : Context) :
  (∃ name p, service.providers s !! name = Some p ∧
             (Provider.ListModels p ctx).2 ≠ None) →
  ∃ before name p err after,
    range_map rnd_call (service.providers s) = before ++ (name, p) :: after
    ∧ Forall (λ entry, (Provider.ListModels entry.2 ctx).2 = None) before
    ∧ service.providers s !! name = Some p
    ∧ (Provider.ListModels p ctx).2 = Some err
    ∧ service.ListModels rnd_copy rnd_call s ctx
      = (None,
         Some (Errorf_w ("failed to list models for provider " +:+ name +:+ ": ")
                        err)).
Proof.
  unfold service.ListModels. rewrite snapshot_eq.
  set (entries := range_map rnd_call (service.providers s)).
  intros (name & p & Hp & Hfail).
  destruct (first_failing ctx entries)
    as (before & name' & p' & err & after & Hsplit & Hbefore & Herr).
  { apply Exists_exists. exists (name, p). split; [|done].
    by apply elem_of_range_map. }
  exists before, name', p', err, after. split_and!; try done.
  - apply (elem_of_range_map rnd_call). fold entries. rewrite Hsplit.
    apply elem_of_app. right. left.
  - rewrite Hsplit. by apply ListModels_loop_fail.
Qed.

(** C9.  [ListModels] is all or nothing.  When the listing of every
    registered provider succeeds, it returns a map whose keys are the
    names [ListProviders] returns and whose value under each name is what
    that provider's own [ListModels] returned.  When some listing fails,
    it returns a nil map and the error of the first failing provider in
    its iteration order, wrapped as "failed to list models for provider
    <name>: <cause>"; when a single provider fails, that is this
    provider's error. *)
Theorem ListModels_all_or_nothing
    (rnd_copy rnd_call rnd : list nat) (s : service.t) (ctx : Context) :
  ((∀ name p, service.providers s !! name = Some p →
              (Provider.ListModels p ctx).2 = None) →
   ∃ result,
     service.ListModels rnd_copy rnd_call s ctx = (Some result, None)
     ∧ dom result = list_to_set (default [] (service.ListProviders rnd s))
     ∧ (∀ name p, service.providers s !! name = Some p →
                  result !! name = Some (Provider.ListModels p ctx).1))
  ∧ ((∃ name p, service.providers s !! name = Some p ∧
                (Provider.ListModels p ctx).2 ≠ None) →
     ∃ before name p err after,
       range_map rnd_call (service.providers s) = before ++ (name, p) :: after
       ∧ Forall (λ entry, (Provider.ListModels entry.2 ctx).2 = None) before
       ∧ service.providers s !! name = Some p
       ∧ (Provider.ListModels p ctx).2 = Some err
       ∧ service.ListModels rnd_copy rnd_call s ctx
         = (None,
            Some (Errorf_w ("failed to list models for provider " +:+ name +:+ ": ")
                           err)))
  ∧ (∀ name p err,
       service.providers s !! name = Some p →
       (Provider.ListModels p ctx).2 = Some err →
       (∀ name' p', service.providers s !! name' = Some p' → name' ≠ name →
                    (Provider.ListModels p' ctx).2 = None) →
       service.ListModels rnd_copy rnd_call s ctx
       = (None,
          Some (Errorf_w ("failed to list models for provider " +:+ name +:+ ": ")
                         err))).
Proof.
  split_and!.
  - intros Hall. eexists. split; [by apply ListModels_all_ok|]. split.
    + apply set_eq. intros name.
      rewrite elem_of_dom, elem_of_list_to_set, elem_of_ListProviders, lookup_fmap.
      apply fmap_is_Some.
    + intros name p Hp. by rewrite lookup_fmap, Hp.
  - apply ListModels_first_failure.
  - intros name p err Hp Herr Hothers.
    destruct (ListModels_first_failure rnd_copy rnd_call s ctx)
      as (_ & name' & p' & err' & _ & _ & _ & Hp' & Herr' & ->).
    { exists name, p. split; [done|congruence]. }
    destruct (decide (name' = name)) as [->|Hne]; [congruence|].
    rewrite (Hothers name' p' Hp' Hne) in Herr'. discriminate.
Qed.

Lemma ListModels_all_or_nothing_witness :
  (∃ result,
     service.ListModels [1] [0; 1] (registry_of [provider1; provider2]) Background
     = (Some result, None)
     ∧ dom result
       = list_to_set (default [] (service.ListProviders [1]
                                    (registry_of [provider1; provider2])))
     ∧ (∀ name p,
          service.providers (registry_of [provider1; provider2]) !! name = Some p →
          result !! name = Some (Provider.ListModels p Background).1))
  ∧ (∃ before name p err after,
       range_map [2]
         (service.providers
            (registry_of [provider1; unreachableProvider "x"; provider2]))
       = before ++ (name, p) :: after
       ∧ Forall (λ entry, (Provider.ListModels entry.2 Background).2 = None) before
       ∧ service.providers
           (registry_of [provider1; unreachableProvider "x"; provider2]) !! name
         = Some p
       ∧ (Provider.ListModels p Background).2 = Some err
       ∧ service.ListModels [] [2]
           (registry_of [provider1; unreachableProvider "x"; provider2]) Background
         = (None,
            Some (Errorf_w ("failed to list models for provider " +:+ name +:+ ": ")
                           err))).
Proof.
  split.
  - apply (proj1 (ListModels_all_or_nothing [1] [0; 1] [1]
                    (registry_of [provider1; provider2]) Background)).
    intros name p Hp. apply elem_of_map_to_list in Hp.
    change ((λ entry : string * Provider.t,
               (Provider.ListModels entry.2 Background).2 = None) (name, p)).
    revert Hp. generalize (name, p). apply (proj1 (Forall_forall _ _)).
    vm_compute. repeat constructor.
  - apply (proj1 (proj2 (ListModels_all_or_nothing [] [2] []
                    (registry_of [provider1; unreachableProvider "x"; provider2])
                    Background))).
    exists "x", (unreachableProvider "x"). split; [vm_compute; reflexivity|].
    simpl. discriminate.
Defined.

(** ** The embedder: configuration and [Embed] *)

Section embedder.

Context {S : Type} `{!Service.t S}.

Implicit Types (e : LLMEmbedder.t S) (ctx : Context) (content : any).

Lemma SetMaxPoolSize_maxPoolSize e (size : Z) :
  LLMEmbedder.maxPoolSize (LLMEmbedder.SetMaxPoolSize e size)
  = if decide (size > 0)%Z then size else 10%Z.
Proof. unfold LLMEmbedder.SetMaxPoolSize. by destruct (decide _). Qed.

(** The ceiling of an embedder built through the package's interface is
    positive. *)
Lemma constructed_maxPoolSize e :
  LLMEmbedder.constructed e → (0 < LLMEmbedder.maxPoolSize e)%Z.
Proof.
  induction 1 as [| e size _ _]; [done|].
  rewrite SetMaxPoolSize_maxPoolSize. destruct (decide _); lia.
Qed.

(** [Embed] unfolded on a content the type switch accepts. *)
Lemma Embed_accepted e ctx content text response err :
  LLMEmbedder.textContent content = Some text →
  Service.Embed (LLMEmbedder.service e) ctx (LLMEmbedder.provider e)
                (LLMEmbedder.model e)
                {| Input := text; Model := ""; EmbeddingRequest_Metadata := ∅ |}
  = (response, err) →
  value (LLMEmbedder.Embed e ctx content)
  = match err with
    | Some err => (None, Some (Errorf_w "failed to get embedding: " err))
    | None =>
        if decide ((LLMEmbedder.dimensions e > 0)%Z
                   ∧ len (Embedding response) ≠ LLMEmbedder.dimensions e)
        then (None,
              Some (errorString
                      ("expected embedding dimension "
                       +:+ fmt_d (LLMEmbedder.dimensions e)
                       +:+ ", got " +:+ fmt_d (len (Embedding response)))))
        else (Embedding response, None)
    end.
Proof.
  intros Htext Hcall. unfold LLMEmbedder.Embed. rewrite Htext.
  unfold mbind, Traced_bind, LLMEmbedder.service_Embed. simpl.
  rewrite Hcall. destruct err; [done|]. by destruct (decide _).
Qed.

End embedder.

(** C3, as the code has it.  [SetMaxPoolSize] with a non-positive size
    does not keep the current ceiling: it sets the ceiling to 10.  So the
    ceiling is left unchanged exactly when it already was 10, as it is
    right after [NewLLMEmbedder]; after [SetMaxPoolSize(5)] followed by
    [SetMaxPoolSize(0)] the ceiling is 10. *)
Theorem SetMaxPoolSize_nonpositive_resets
    {S : Type} `{!Service.t S} (e : LLMEmbedder.t S) (n : Z) :
  (n ≤ 0)%Z →
  LLMEmbedder.maxPoolSize (LLMEmbedder.SetMaxPoolSize e n) = 10%Z
  ∧ (LLMEmbedder.maxPoolSize (LLMEmbedder.SetMaxPoolSize e n)
     = LLMEmbedder.maxPoolSize e
     ↔ LLMEmbedder.maxPoolSize e = 10%Z)
  ∧ (∀ (service : S) provider model dimensions,
       LLMEmbedder.maxPoolSize
         (LLMEmbedder.SetMaxPoolSize
            (LLMEmbedder.NewLLMEmbedder service provider model dimensions) n)
       = LLMEmbedder.maxPoolSize
           (LLMEmbedder.NewLLMEmbedder service provider model dimensions))
  ∧ LLMEmbedder.maxPoolSize
      (LLMEmbedder.SetMaxPoolSize (LLMEmbedder.SetMaxPoolSize e 5) n)
    = 10%Z.
Proof.
  intros Hn. rewrite !SetMaxPoolSize_maxPoolSize.
  rewrite decide_False by lia. repeat split; intros; try congruence.
  rewrite SetMaxPoolSize_maxPoolSize. by rewrite decide_False by lia.
Qed.

Lemma SetMaxPoolSize_nonpositive_resets_witness :
  LLMEmbedder.maxPoolSize
    (LLMEmbedder.SetMaxPoolSize
       (LLMEmbedder.SetMaxPoolSize
          (LLMEmbedder.NewLLMEmbedder (mockSvc None) "" "" 0) 5) 0)
  = 10%Z.
Proof.
  apply (SetMaxPoolSize_nonpositive_resets
           (LLMEmbedder.SetMaxPoolSize
              (LLMEmbedder.NewLLMEmbedder (mockSvc None) "" "" 0) 5) 0).
  lia.
Defined.

(** C3, as stated, fails: after [SetMaxPoolSize(5)] the ceiling is 5, and
    the call [SetMaxPoolSize(0)] that follows leaves it at 10. *)
Lemma SetMaxPoolSize_zero_after_five :
  LLMEmbedder.maxPoolSize
    (LLMEmbedder.SetMaxPoolSize
       (LLMEmbedder.NewLLMEmbedder (mockSvc None) "" "" 0) 5)
  = 5%Z
  ∧ LLMEmbedder.maxPoolSize
      (LLMEmbedder.SetMaxPoolSize
         (LLMEmbedder.SetMaxPoolSize
            (LLMEmbedder.NewLLMEmbedder (mockSvc None) "" "" 0) 5) 0)
    = 10%Z
  ∧ ¬ (∀ (e : LLMEmbedder.t mockService) (n : Z),
         (n ≤ 0)%Z →
         LLMEmbedder.maxPoolSize (LLMEmbedder.SetMaxPoolSize e n)
         = LLMEmbedder.maxPoolSize e).
Proof.
  split_and!; [reflexivity|reflexivity|].
  intros Hclaim.
  specialize (Hclaim (LLMEmbedder.SetMaxPoolSize
                        (LLMEmbedder.NewLLMEmbedder (mockSvc None) "" "" 0) 5)
                     0%Z).
  discriminate Hclaim. lia.
Qed.

(** C4.  After [SetMaxPoolSize(n)] the ceiling is [n] when [n] is
    positive and the default 10 when it is not, whatever it was before;
    no other field of the embedder changes. *)
Theorem SetMaxPoolSize_ceiling
    {S : Type} `{!Service.t S} (e : LLMEmbedder.t S) (n : Z) :
  ((0 < n)%Z → LLMEmbedder.maxPoolSize (LLMEmbedder.SetMaxPoolSize e n) = n)
  ∧ ((n ≤ 0)%Z →
     LLMEmbedder.maxPoolSize (LLMEmbedder.SetMaxPoolSize e n) = 10%Z)
  ∧ LLMEmbedder.maxPoolSize
      (LLMEmbedder.NewLLMEmbedder (LLMEmbedder.service e) (LLMEmbedder.provider e)
                                  (LLMEmbedder.model e) (LLMEmbedder.dimensions e))
    = 10%Z
  ∧ LLMEmbedder.service (LLMEmbedder.SetMaxPoolSize e n) = LLMEmbedder.service e
  ∧ LLMEmbedder.provider (LLMEmbedder.SetMaxPoolSize e n) = LLMEmbedder.provider e
  ∧ LLMEmbedder.model (LLMEmbedder.SetMaxPoolSize e n) = LLMEmbedder.model e
  ∧ LLMEmbedder.dimensions (LLMEmbedder.SetMaxPoolSize e n)
    = LLMEmbedder.dimensions e.
Proof.
  rewrite SetMaxPoolSize_maxPoolSize. unfold LLMEmbedder.SetMaxPoolSize.
  destruct (decide (n > 0)%Z); split_and!; try done; lia.
Qed.

Lemma SetMaxPoolSize_ceiling_witness :
  LLMEmbedder.maxPoolSize
    (LLMEmbedder.SetMaxPoolSize
       (LLMEmbedder.NewLLMEmbedder (mockSvc None) "" "" 0) 5)
  = 5%Z
  ∧ LLMEmbedder.maxPoolSize
      (LLMEmbedder.SetMaxPoolSize
         (LLMEmbedder.SetMaxPoolSize
            (LLMEmbedder.NewLLMEmbedder (mockSvc None) "" "" 0) 7) (-1))
    = 10%Z.
Proof.
  split.
  - apply (proj1 (SetMaxPoolSize_ceiling
                    (LLMEmbedder.NewLLMEmbedder (mockSvc None) "" "" 0) 5)).
    lia.
  - apply (proj1 (proj2 (SetMaxPoolSize_ceiling
                           (LLMEmbedder.SetMaxPoolSize
                              (LLMEmbedder.NewLLMEmbedder (mockSvc None) "" "" 0) 7)
                           (-1)))).
    lia.
Defined.

(** C5.  Let [content] be accepted by the type switch and let the
    service answer the request without error, with a [response].  With a
    positive [dimensions], [Embed] fails with the error the specification
    calls DimensionMismatch ("expected embedding dimension d, got n") when
    the length of the returned vector differs from it, and returns the
    vector unchanged when the length is exactly [dimensions].  With a
    [dimensions] that is not positive the length is not looked at: the
    vector is returned whatever its length. *)
Theorem Embed_dimension_check
    {S : Type} `{!Service.t S} (e : LLMEmbedder.t S) (ctx : Context)
    (content : any) (text : string) (response : EmbeddingResponse) :
  LLMEmbedder.textContent content = Some text →
  Service.Embed (LLMEmbedder.service e) ctx (LLMEmbedder.provider e)
                (LLMEmbedder.model e)
                {| Input := text; Model := ""; EmbeddingRequest_Metadata := ∅ |}
  = (response, None) →
  ((0 < LLMEmbedder.dimensions e)%Z →
   len (Embedding response) ≠ LLMEmbedder.dimensions e →
   value (LLMEmbedder.Embed e ctx content)
   = (None,
      Some (errorString
              ("expected embedding dimension " +:+ fmt_d (LLMEmbedder.dimensions e)
               +:+ ", got " +:+ fmt_d (len (Embedding response))))))
  ∧ ((0 < LLMEmbedder.dimensions e)%Z →
     len (Embedding response) = LLMEmbedder.dimensions e →
     value (LLMEmbedder.Embed e ctx content) = (Embedding response, None))
  ∧ ((LLMEmbedder.dimensions e ≤ 0)%Z →
     value (LLMEmbedder.Embed e ctx content) = (Embedding response, None)).
Proof.
  intros Htext Hcall. rewrite (Embed_accepted _ _ _ _ _ _ Htext Hcall).
  split_and!.
  - intros Hpos Hlen. rewrite decide_True; [done|]. split; [lia|done].
  - intros Hpos Hlen. rewrite decide_False; [done|]. intros [_ ?]. done.
  - intros Hneg. rewrite decide_False; [done|]. intros [? _]. lia.
Qed.

Lemma Embed_dimension_check_witness :
  value (LLMEmbedder.Embed
           (LLMEmbedder.NewLLMEmbedder (mockSvc expectedEmbedding)
                                       "test-provider" "test-model" 3)
           Background (string_any "test text"))
  = (expectedEmbedding, None)
  ∧ value (LLMEmbedder.Embed
             (LLMEmbedder.NewLLMEmbedder (mockSvc (Some [1%float; 2%float]))
                                         "test-provider" "test-model" 3)
             Background (string_any "test text"))
    = (None, Some (errorString "expected embedding dimension 3, got 2"))
  ∧ value (LLMEmbedder.Embed
             (LLMEmbedder.NewLLMEmbedder (mockSvc (Some [1%float; 2%float]))
                                         "test-provider" "test-model" 0)
             Background (string_any "test text"))
    = (Some [1%float; 2%float], None).
Proof.
  split_and!.
  - refine (proj1 (proj2 (Embed_dimension_check
        (LLMEmbedder.NewLLMEmbedder (mockSvc expectedEmbedding)
                                    "test-provider" "test-model" 3)
        Background (string_any "test text") "test text"
        (response_of expectedEmbedding) _ _)) _ _);
      reflexivity.
  - refine (proj1 (Embed_dimension_check
        (LLMEmbedder.NewLLMEmbedder (mockSvc (Some [1%float; 2%float]))
                                    "test-provider" "test-model" 3)
        Background (string_any "test text") "test text"
        (response_of (Some [1%float; 2%float])) _ _) _ _);
      [reflexivity | reflexivity | reflexivity | discriminate].
  - refine (proj2 (proj2 (Embed_dimension_check
        (LLMEmbedder.NewLLMEmbedder (mockSvc (Some [1%float; 2%float]))
                                    "test-provider" "test-model" 0)
        Background (string_any "test text") "test text"
        (response_of (Some [1%float; 2%float])) _ _)) _);
      [reflexivity | reflexivity | discriminate].
Defined.

(** C6.  A [string], a [[]byte] and a value with a [String()] method are
    turned into text, and [Embed] issues exactly one request to the
    service, for that text, with the embedder's provider and model.  On
    any other content, for instance an [int], [Embed] fails with the error
    the specification calls UnsupportedType ("unsupported content type")
    and issues no request. *)
Theorem Embed_content_types
    {S : Type} `{!Service.t S} (e : LLMEmbedder.t S) (ctx : Context) :
  let request_for text :=
    {| call_ctx := ctx; call_provider := LLMEmbedder.provider e;
       call_model := LLMEmbedder.model e;
       call_request := {| Input := text; Model := "";
                          EmbeddingRequest_Metadata := ∅ |} |} in
  (∀ c, trace (LLMEmbedder.Embed e ctx (string_any c)) = [request_for c])
  ∧ (∀ c, trace (LLMEmbedder.Embed e ctx (bytes_any c))
          = [request_for (string_of_bytes c)])
  ∧ (∀ c, trace (LLMEmbedder.Embed e ctx (Stringer_any c)) = [request_for c])
  ∧ (∀ content,
       (∀ c, content ≠ string_any c) →
       (∀ c, content ≠ bytes_any c) →
       (∀ c, content ≠ Stringer_any c) →
       LLMEmbedder.Embed e ctx content
       = {| value := (None, Some (errorString "unsupported content type"));
            trace := [] |})
  ∧ (∀ n, LLMEmbedder.Embed e ctx (int_any n)
          = {| value := (None, Some (errorString "unsupported content type"));
               trace := [] |}).
Proof.
  assert (∀ content text,
            LLMEmbedder.textContent content = Some text →
            trace (LLMEmbedder.Embed e ctx content)
            = [ {| call_ctx := ctx; call_provider := LLMEmbedder.provider e;
                   call_model := LLMEmbedder.model e;
                   call_request := {| Input := text; Model := "";
                                      EmbeddingRequest_Metadata := ∅ |} |} ])
    as Hone.
  { intros content text Htext. unfold LLMEmbedder.Embed. rewrite Htext.
    unfold mbind, Traced_bind, LLMEmbedder.service_Embed. simpl.
    destruct (Service.Embed _ _ _ _ _) as [response [err|]]; [done|].
    by destruct (decide _). }
  cbv zeta. split_and!.
  - intros c. by apply Hone.
  - intros c. by apply Hone.
  - intros c. by apply Hone.
  - intros content Hs Hb Hg.
    destruct content as [|c|c|c| | | |]; try done.
    + by destruct (Hs c).
    + by destruct (Hb c).
    + by destruct (Hg c).
  - done.
Qed.

Lemma Embed_content_types_witness :
  LLMEmbedder.Embed
    (LLMEmbedder.NewLLMEmbedder (mockSvc expectedEmbedding)
                                "test-provider" "test-model" 3)
    Background (float64_any 1.5%float)
  = {| value := (None, Some (errorString "unsupported content type"));
       trace := [] |}.
Proof.
  refine (proj1 (proj2 (proj2 (proj2 (Embed_content_types
    (LLMEmbedder.NewLLMEmbedder (mockSvc expectedEmbedding)
                                "test-provider" "test-model" 3)
    Background)))) (float64_any 1.5%float) _ _ _);
    intros c; discriminate.
Defined.

(** ** The worker pool of [BatchEmbed] *)

Lemma weight_insert (w : worker → nat) (ws : list worker) i a b :
  ws !! i = Some a →
  LLMEmbedder.weight w (<[i := b]> ws) + w a = LLMEmbedder.weight w ws + w b.
Proof.
  revert i. induction ws as [|x ws IH]; intros [|i] Hi; simpl in *; try done.
  - injection Hi as ->. lia.
  - specialize (IH i Hi). lia.
Qed.

Lemma weight_replicate (w : worker → nat) n a :
  LLMEmbedder.weight w (replicate n a) = n * w a.
Proof.
  induction n as [|n IH]; simpl; [done|]. rewrite IH. lia.
Qed.

Lemma weight_positive (w : worker → nat) (ws : list worker) :
  0 < LLMEmbedder.weight w ws → ∃ i a, ws !! i = Some a ∧ 0 < w a.
Proof.
  induction ws as [|x ws IH]; simpl; [lia|]. intros Hpos. destruct (decide (0 < w x)) as [Hx|Hx].
  - by exists 0, x.
  - destruct IH as (i & a & Hi & Ha); [lia|]. by exists (Datatypes.S i), a.
Qed.

Lemma weight_zero (w : worker → nat) (ws : list worker) i a :
  LLMEmbedder.weight w ws = 0 → ws !! i = Some a → w a = 0.
Proof.
  revert i.
  induction ws as [|x ws IH]; intros [|i] Hsum Hi; simpl in *; try done.
  - injection Hi as ->. lia.
  - apply (IH i); [lia|done].
Qed.

Lemma all_exited (ws : list worker) :
  LLMEmbedder.weight LLMEmbedder.rank ws = 0 →
  LLMEmbedder.weight LLMEmbedder.exited ws = length ws.
Proof.
  induction ws as [|x ws IH]; simpl; [done|]. destruct x; simpl; lia.
Qed.

Lemma worker_event_listed (n idx : nat) :
  idx < n →
  Acquire idx ∈ LLMEmbedder.all_events n
  ∧ Work idx ∈ LLMEmbedder.all_events n
  ∧ Exit idx ∈ LLMEmbedder.all_events n.
Proof.
  intros Hlt. unfold LLMEmbedder.all_events.
  assert (∀ ev, ev ∈ [Acquire idx; Work idx; Exit idx] →
                ev ∈ Recv :: flat_map (λ idx, [Acquire idx; Work idx; Exit idx])
                                      (seq 0 n)) as Hin.
  { intros ev Hev. right. apply list_elem_of_In, in_flat_map.
    exists idx. split; [apply in_seq; lia|by apply list_elem_of_In]. }
  split_and!; apply Hin; set_solver.
Qed.

Section run_facts.

Context {S : Type} `{!Service.t S}.
Variables (e : LLMEmbedder.t S) (ctx : Context) (contents : list any).
Variable cap : nat.

Local Abbreviation inv := (LLMEmbedder.batch_inv cap e ctx contents).
Local Abbreviation step := (LLMEmbedder.step e ctx contents).
Local Abbreviation run := (LLMEmbedder.run cap e ctx contents).

Implicit Types (s : LLMEmbedder.batch) (ev : event).

Lemma start_inv : inv (LLMEmbedder.start contents).
Proof.
  constructor; simpl; rewrite ?length_replicate, ?weight_replicate;
    try (simpl; lia).
  intros idx w c Hw Hc. apply lookup_replicate in Hw as [-> _]. simpl.
  assert (idx < length contents) by (by eapply lookup_lt_Some).
  split; by apply lookup_replicate.
Qed.

Lemma start_steps_left :
  LLMEmbedder.steps_left (LLMEmbedder.start contents) = 4 * length contents.
Proof.
  unfold LLMEmbedder.steps_left. simpl. rewrite weight_replicate. simpl. lia.
Qed.

(** A step that can fire keeps the invariant and is one step less to go. *)
Lemma step_inv s ev :
  inv s → LLMEmbedder.can_fire cap s ev = true →
  inv (step ev s)
  ∧ LLMEmbedder.steps_left (step ev s) + 1 = LLMEmbedder.steps_left s.
Proof.
  intros [Hr He Hw Hsem Hcap Hdone Hslots] Hfire.
  unfold LLMEmbedder.steps_left.
  destruct ev as [idx|idx|idx|]; simpl in Hfire.
  - apply andb_true_iff in Hfire as [Hidx Hroom].
    apply bool_decide_eq_true in Hidx. apply Nat.ltb_lt in Hroom.
    pose proof (weight_insert LLMEmbedder.holds _ _ _ Holding Hidx) as Hh.
    pose proof (weight_insert LLMEmbedder.exited _ _ _ Holding Hidx) as Hx.
    pose proof (weight_insert LLMEmbedder.rank _ _ _ Holding Hidx) as Hk.
    simpl in Hh, Hx, Hk.
    split; [constructor|]; simpl; rewrite ?length_insert; try lia.
    intros idx' w c Hw' Hc. destruct (decide (idx' = idx)) as [->|Hne].
    + rewrite list_lookup_insert_eq in Hw' by (by eapply lookup_lt_Some).
      injection Hw' as <-. by apply (Hslots idx Waiting c).
    + rewrite list_lookup_insert_ne in Hw' by done. by apply Hslots.
  - apply bool_decide_eq_true in Hfire.
    pose proof (weight_insert LLMEmbedder.holds _ _ _ Stored Hfire) as Hh.
    pose proof (weight_insert LLMEmbedder.exited _ _ _ Stored Hfire) as Hx.
    pose proof (weight_insert LLMEmbedder.rank _ _ _ Stored Hfire) as Hk.
    simpl in Hh, Hx, Hk.
    assert (idx < length contents) as Hlt
      by (rewrite <-Hw; by eapply lookup_lt_Some).
    destruct (lookup_lt_is_Some_2 contents idx Hlt) as [c Hc].
    destruct (Hslots idx Holding c Hfire Hc) as [Hres Herr]. simpl in Hres, Herr.
    unfold LLMEmbedder.step. rewrite Hc.
    destruct (value (LLMEmbedder.Embed e ctx c)) as [embedding err] eqn:Hembed.
    assert (LLMEmbedder.stored_err e ctx c = err) as Hserr
      by (unfold LLMEmbedder.stored_err; by rewrite Hembed).
    assert (LLMEmbedder.stored_result e ctx c
            = match err with Some _ => None | None => embedding end) as Hsres
      by (unfold LLMEmbedder.stored_result; by rewrite Hembed).
    destruct err as [err|];
      (split; [constructor|]; simpl; rewrite ?length_insert; try lia);
      intros idx' w c' Hw' Hc'; (destruct (decide (idx' = idx)) as [->|Hne];
        [ rewrite list_lookup_insert_eq in Hw' by (by eapply lookup_lt_Some);
          injection Hw' as <-; simpl;
          assert (c' = c) as -> by congruence; rewrite Hserr, Hsres;
          rewrite ?list_lookup_insert_eq by lia; by rewrite ?Hres, ?Herr
        | rewrite list_lookup_insert_ne in Hw' by done;
          rewrite ?list_lookup_insert_ne by done; by apply Hslots ]).
  - apply bool_decide_eq_true in Hfire.
    pose proof (weight_insert LLMEmbedder.holds _ _ _ Exited Hfire) as Hh.
    pose proof (weight_insert LLMEmbedder.exited _ _ _ Exited Hfire) as Hx.
    pose proof (weight_insert LLMEmbedder.rank _ _ _ Exited Hfire) as Hk.
    simpl in Hh, Hx, Hk.
    split; [constructor|]; simpl; rewrite ?length_insert; try lia.
    intros idx' w c Hw' Hc. destruct (decide (idx' = idx)) as [->|Hne].
    + rewrite list_lookup_insert_eq in Hw' by (by eapply lookup_lt_Some).
      injection Hw' as <-. by apply (Hslots idx Stored c).
    + rewrite list_lookup_insert_ne in Hw' by done. by apply Hslots.
  - apply Nat.ltb_lt in Hfire.
    split; [constructor|]; simpl; try lia. done.
Qed.

(** With a positive capacity the pool never gets stuck before the end. *)
Lemma progress s :
  inv s → 0 < cap → 0 < LLMEmbedder.steps_left s →
  ∃ ev, ev ∈ LLMEmbedder.enabled cap s.
Proof.
  intros [Hr He Hw Hsem Hcap Hdone Hslots] Hpos Hleft.
  assert (∀ ev, ev ∈ LLMEmbedder.all_events (length (LLMEmbedder.workers s)) →
                LLMEmbedder.can_fire cap s ev = true →
                ∃ ev, ev ∈ LLMEmbedder.enabled cap s) as Hfire.
  { intros ev Hin Hev. exists ev. by apply list_elem_of_filter. }
  destruct (decide (0 < LLMEmbedder.done_ch s)) as [Hdone_ch|Hdone_ch].
  { apply (Hfire Recv); [left|]. simpl. by apply Nat.ltb_lt. }
  unfold LLMEmbedder.steps_left in Hleft.
  destruct (weight_positive LLMEmbedder.rank (LLMEmbedder.workers s))
    as (idx & w & Hidx & Hrank); [lia|].
  pose proof (worker_event_listed _ idx (lookup_lt_Some _ _ _ Hidx))
    as (Hacq & Hwork & Hexit).
  destruct w; simpl in Hrank; [| | |lia].
  - destruct (decide (LLMEmbedder.semaphore s = 0)) as [Hfree|Hheld].
    + apply (Hfire (Acquire idx) Hacq). simpl.
      rewrite bool_decide_eq_true_2 by done. apply Nat.ltb_lt. lia.
    + destruct (weight_positive LLMEmbedder.holds (LLMEmbedder.workers s))
        as (idx' & w' & Hidx' & Hholds); [lia|].
      pose proof (worker_event_listed _ idx' (lookup_lt_Some _ _ _ Hidx'))
        as (_ & Hwork' & Hexit').
      destruct w'; simpl in Hholds; try lia.
      * apply (Hfire (Work idx') Hwork'). simpl. by apply bool_decide_eq_true.
      * apply (Hfire (Exit idx') Hexit'). simpl. by apply bool_decide_eq_true.
  - apply (Hfire (Work idx) Hwork). simpl. by apply bool_decide_eq_true.
  - apply (Hfire (Exit idx) Hexit). simpl. by apply bool_decide_eq_true.
Qed.

(** Once no step is left, nothing can fire. *)
Lemma finished_quiet s :
  inv s → LLMEmbedder.steps_left s = 0 → LLMEmbedder.enabled cap s = [].
Proof.
  intros [Hr He Hw Hsem Hcap Hdone Hslots] Hleft.
  unfold LLMEmbedder.steps_left in Hleft.
  assert (∀ idx w, LLMEmbedder.workers s !! idx = Some w → w = Exited) as Hall.
  { intros idx w Hidx.
    pose proof (weight_zero LLMEmbedder.rank (LLMEmbedder.workers s) idx w
                           ltac:(lia) Hidx).
    by destruct w. }
  destruct (LLMEmbedder.enabled cap s) as [|ev evs] eqn:Hevs; [done|].
  assert (ev ∈ LLMEmbedder.enabled cap s) as Hin by (rewrite Hevs; left).
  apply list_elem_of_filter in Hin as [Hfire _].
  destruct ev as [idx|idx|idx|]; simpl in Hfire.
  - apply andb_true_iff in Hfire as [Hidx _].
    apply bool_decide_eq_true in Hidx. by apply Hall in Hidx.
  - apply bool_decide_eq_true in Hfire. by apply Hall in Hfire.
  - apply bool_decide_eq_true in Hfire. by apply Hall in Hfire.
  - apply Nat.ltb_lt in Hfire. lia.
Qed.

(** [run] with enough fuel stops only where nothing can fire, and with a
    positive capacity that is where no step is left. *)
Lemma run_exhausts fuel sched s :
  inv s → LLMEmbedder.steps_left s ≤ fuel →
  inv (run fuel sched s)
  ∧ LLMEmbedder.enabled cap (run fuel sched s) = []
  ∧ (0 < cap → LLMEmbedder.steps_left (run fuel sched s) = 0).
Proof.
  revert sched s. induction fuel as [|fuel IH]; intros sched s Hinv Hleft.
  - simpl. split_and!; [done|apply finished_quiet; [done|lia]|lia].
  - simpl.
    destruct (LLMEmbedder.enabled cap s
                !! (hd 0 sched `mod` length (LLMEmbedder.enabled cap s)))
      as [ev|] eqn:Hpick.
    + apply list_elem_of_lookup_2, list_elem_of_filter in Hpick as [Hfire _].
      destruct (step_inv s ev Hinv Hfire) as [Hinv' Hleft'].
      apply IH; [done|lia].
    + apply lookup_ge_None in Hpick.
      assert (LLMEmbedder.enabled cap s = []) as Hnone.
      { destruct (LLMEmbedder.enabled cap s) as [|ev evs]; [done|].
        pose proof (Nat.mod_upper_bound (hd 0 sched) (length (ev :: evs))).
        simpl in *. lia. }
      split_and!; [done|done|]. intros Hpos.
      destruct (decide (LLMEmbedder.steps_left s = 0)) as [|Hmore]; [done|].
      destruct (progress s Hinv Hpos) as [ev Hev]; [lia|].
      rewrite Hnone in Hev. by apply elem_of_nil in Hev.
Qed.

(** When no step is left every slot holds its item's outcome, and the
    caller has received every completion. *)
Lemma finished_slots s :
  inv s → LLMEmbedder.steps_left s = 0 →
  LLMEmbedder.received s = length contents
  ∧ LLMEmbedder.results s = LLMEmbedder.stored_result e ctx <$> contents
  ∧ LLMEmbedder.errs s = LLMEmbedder.stored_err e ctx <$> contents.
Proof.
  intros [Hr He Hw Hsem Hcap Hdone Hslots] Hleft.
  unfold LLMEmbedder.steps_left in Hleft.
  assert (∀ idx c, contents !! idx = Some c →
                   LLMEmbedder.workers s !! idx = Some Exited) as Hall.
  { intros idx c Hc.
    destruct (lookup_lt_is_Some_2 (LLMEmbedder.workers s) idx) as [w Hidx].
    { rewrite Hw. by eapply lookup_lt_Some. }
    pose proof (weight_zero LLMEmbedder.rank (LLMEmbedder.workers s) idx w
                           ltac:(lia) Hidx).
    by destruct w. }
  split_and!.
  - rewrite all_exited in Hdone by lia. lia.
  - apply list_eq. intros idx. rewrite list_lookup_fmap.
    destruct (contents !! idx) as [c|] eqn:Hc; simpl.
    + by destruct (Hslots idx Exited c (Hall idx c Hc) Hc) as [-> _].
    + apply lookup_ge_None. rewrite Hr. by apply lookup_ge_None.
  - apply list_eq. intros idx. rewrite list_lookup_fmap.
    destruct (contents !! idx) as [c|] eqn:Hc; simpl.
    + by destruct (Hslots idx Exited c (Hall idx c Hc) Hc) as [_ ->].
    + apply lookup_ge_None. rewrite He. by apply lookup_ge_None.
Qed.


End run_facts.

(** ** [BatchEmbed] *)

Section batch_embed.

Context {S : Type} `{!Service.t S}.

Implicit Types (e : LLMEmbedder.t S) (ctx : Context) (contents : list any).
Implicit Types (sched : list nat).

(** Under every schedule, [BatchEmbed] with a positive ceiling returns,
    and returns what embedding the items one after the other and then
    scanning the errors would. *)
Lemma BatchEmbed_sequential sched e ctx contents :
  (0 < LLMEmbedder.maxPoolSize e)%Z →
  ∃ calls,
    LLMEmbedder.BatchEmbed sched e ctx contents
    = Returned
        {| value :=
             match LLMEmbedder.first_error
                     (LLMEmbedder.stored_err e ctx <$> contents) with
             | Some err => (None, Some (Errorf_w "batch embedding failed: " err))
             | None => (Some (LLMEmbedder.stored_result e ctx <$> contents), None)
             end;
           trace := calls |}.
Proof.
  intros Hpos. unfold LLMEmbedder.BatchEmbed.
  rewrite decide_False by lia.
  set (cap := Z.to_nat (LLMEmbedder.maxPoolSize e)).
  destruct (run_exhausts e ctx contents cap (4 * length contents) sched
              (LLMEmbedder.start contents))
    as (Hinv & _ & Hleft).
  { apply start_inv. }
  { by rewrite start_steps_left. }
  destruct (finished_slots e ctx contents cap _ Hinv) as (Hrecv & Hres & Herr).
  { apply Hleft. unfold cap. lia. }
  rewrite decide_True by done. rewrite Hres, Herr. by eexists.
Qed.

Lemma first_error_none (errs : list (option error)) :
  Forall (λ err, err = None) errs → LLMEmbedder.first_error errs = None.
Proof. induction 1 as [|err errs -> _ IH]; [done|]. by simpl. Qed.

(** The scan reports the error in the lowest slot that has one. *)
Lemma first_error_lowest (errs : list (option error)) i err :
  errs !! i = Some (Some err) →
  (∀ j, j < i → errs !! j = Some None) →
  LLMEmbedder.first_error errs = Some err.
Proof.
  revert i. induction errs as [|x errs IH]; intros [|i] Hi Hbelow; try done.
  - simpl in Hi. by injection Hi as ->.
  - pose proof (Hbelow 0 ltac:(lia)) as H0. simpl in H0. injection H0 as ->.
    simpl. apply (IH i); [done|].
    intros j Hj. apply (Hbelow (Datatypes.S j)). lia.
Qed.

Lemma first_error_some (errs : list (option error)) :
  Exists (λ err, err ≠ None) errs → is_Some (LLMEmbedder.first_error errs).
Proof.
  induction errs as [|[err|] errs IH]; intros Hex.
  - by apply Exists_nil in Hex.
  - by eexists.
  - apply Exists_cons in Hex as [?|Hex]; [done|]. by apply IH.
Qed.

Lemma stored_result_ok e ctx c :
  (value (LLMEmbedder.Embed e ctx c)).2 = None →
  LLMEmbedder.stored_result e ctx c = (value (LLMEmbedder.Embed e ctx c)).1.
Proof.
  unfold LLMEmbedder.stored_result.
  destruct (value (LLMEmbedder.Embed e ctx c)) as [embedding err]. simpl.
  by intros ->.
Qed.

End batch_embed.

(** C1.  For an embedder built by [NewLLMEmbedder] and [SetMaxPoolSize]
    and contents on each of which [Embed] succeeds, [BatchEmbed] returns,
    under every schedule of its workers, a nil error and a sequence of
    vectors as long as the contents whose element at every index is the
    vector a direct [Embed] of the item at that index produces. *)
Theorem BatchEmbed_preserves_order
    {S : Type} `{!Service.t S} (sched : list nat) (e : LLMEmbedder.t S)
    (ctx : Context) (contents : list any) :
  LLMEmbedder.constructed e →
  (∀ c, c ∈ contents → (value (LLMEmbedder.Embed e ctx c)).2 = None) →
  ∃ vectors calls,
    LLMEmbedder.BatchEmbed sched e ctx contents
    = Returned {| value := (Some vectors, None); trace := calls |}
    ∧ length vectors = length contents
    ∧ (∀ i c, contents !! i = Some c →
              vectors !! i = Some (value (LLMEmbedder.Embed e ctx c)).1).
Proof.
  intros He Hok.
  destruct (BatchEmbed_sequential sched e ctx contents) as [calls Hrun].
  { by apply constructed_maxPoolSize. }
  rewrite first_error_none in Hrun.
  - exists (LLMEmbedder.stored_result e ctx <$> contents), calls.
    split_and!; [done|by rewrite length_fmap|].
    intros i c Hc. rewrite list_lookup_fmap, Hc. simpl.
    rewrite stored_result_ok; [done|]. apply Hok. by eapply list_elem_of_lookup_2.
  - apply Forall_fmap, Forall_forall. intros c Hc. by apply Hok.
Qed.

Lemma BatchEmbed_preserves_order_witness :
  ∃ vectors calls,
    LLMEmbedder.BatchEmbed [7; 0; 3; 1; 4; 2]
      (LLMEmbedder.SetMaxPoolSize
         (LLMEmbedder.NewLLMEmbedder lengthSvc "test-provider" "test-model" 0) 2)
      Background
      [string_any "x"; Stringer_any "yy"; bytes_any (Some [Byte.x7a; Byte.x7a; Byte.x7a])]
    = Returned {| value := (Some vectors, None); trace := calls |}
    ∧ length vectors = 3
    ∧ (∀ i c,
         [string_any "x"; Stringer_any "yy";
          bytes_any (Some [Byte.x7a; Byte.x7a; Byte.x7a])] !! i = Some c →
         vectors !! i
         = Some (value (LLMEmbedder.Embed
                          (LLMEmbedder.SetMaxPoolSize
                             (LLMEmbedder.NewLLMEmbedder
                                lengthSvc "test-provider" "test-model" 0) 2)
                          Background c)).1).
Proof.
  apply (BatchEmbed_preserves_order [7; 0; 3; 1; 4; 2]
           (LLMEmbedder.SetMaxPoolSize
              (LLMEmbedder.NewLLMEmbedder lengthSvc "test-provider" "test-model" 0) 2)
           Background
           [string_any "x"; Stringer_any "yy";
            bytes_any (Some [Byte.x7a; Byte.x7a; Byte.x7a])]).
  - apply LLMEmbedder.constructed_set, LLMEmbedder.constructed_new.
  - apply (proj1 (Forall_forall _ _)). repeat constructor.
Defined.

(** C2.  When [Embed] fails on at least one item, [BatchEmbed] returns,
    under every schedule, an error together with a nil sequence: the
    vectors of the items that succeeded are not returned. *)
Theorem BatchEmbed_no_partial_result
    {S : Type} `{!Service.t S} (sched : list nat) (e : LLMEmbedder.t S)
    (ctx : Context) (contents : list any) :
  LLMEmbedder.constructed e →
  (∃ c, c ∈ contents ∧ (value (LLMEmbedder.Embed e ctx c)).2 ≠ None) →
  ∃ err calls,
    LLMEmbedder.BatchEmbed sched e ctx contents
    = Returned {| value := (None, Some err); trace := calls |}.
Proof.
  intros He (c & Hc & Hfail).
  destruct (BatchEmbed_sequential sched e ctx contents) as [calls Hrun].
  { by apply constructed_maxPoolSize. }
  destruct (first_error_some (LLMEmbedder.stored_err e ctx <$> contents))
    as [err Herr].
  { apply Exists_fmap, Exists_exists. by exists c. }
  rewrite Herr in Hrun. by eexists _, _.
Qed.

Lemma BatchEmbed_no_partial_result_witness :
  ∃ err calls,
    LLMEmbedder.BatchEmbed [2; 5; 1]
      (LLMEmbedder.SetMaxPoolSize
         (LLMEmbedder.NewLLMEmbedder (mockSvc expectedEmbedding)
                                     "test-provider" "test-model" 3) 2)
      Background [string_any "text1"; int_any 123; string_any "text3"]
    = Returned {| value := (None, Some err); trace := calls |}.
Proof.
  apply (BatchEmbed_no_partial_result [2; 5; 1]
           (LLMEmbedder.SetMaxPoolSize
              (LLMEmbedder.NewLLMEmbedder (mockSvc expectedEmbedding)
                                          "test-provider" "test-model" 3) 2)
           Background [string_any "text1"; int_any 123; string_any "text3"]).
  - apply LLMEmbedder.constructed_set, LLMEmbedder.constructed_new.
  - exists (int_any 123). split; [|discriminate].
    apply list_elem_of_In. simpl. tauto.
Defined.

(** C10.  When [Embed] fails on the item at index [i] and on no item
    below it, whatever happens to the items above it, [BatchEmbed]
    returns the error of item [i] wrapped as "batch embedding failed:
    <cause>", under every schedule: two runs that complete their workers
    in different orders report the same error. *)
Theorem BatchEmbed_reports_lowest_index
    {S : Type} `{!Service.t S} (sched sched' : list nat) (e : LLMEmbedder.t S)
    (ctx : Context) (contents : list any) (i : nat) (c : any) (err : error) :
  LLMEmbedder.constructed e →
  contents !! i = Some c →
  (value (LLMEmbedder.Embed e ctx c)).2 = Some err →
  (∀ j c', j < i → contents !! j = Some c' →
           (value (LLMEmbedder.Embed e ctx c')).2 = None) →
  (∃ calls,
     LLMEmbedder.BatchEmbed sched e ctx contents
     = Returned {| value := (None, Some (Errorf_w "batch embedding failed: " err));
                   trace := calls |})
  ∧ (∃ calls',
       LLMEmbedder.BatchEmbed sched' e ctx contents
       = Returned {| value := (None, Some (Errorf_w "batch embedding failed: " err));
                     trace := calls' |}).
Proof.
  intros He Hc Hfail Hbelow.
  assert (LLMEmbedder.first_error (LLMEmbedder.stored_err e ctx <$> contents)
          = Some err) as Hfirst.
  { apply (first_error_lowest _ i).
    - rewrite list_lookup_fmap, Hc. simpl.
      unfold LLMEmbedder.stored_err. by rewrite Hfail.
    - intros j Hj. rewrite list_lookup_fmap.
      destruct (lookup_lt_is_Some_2 contents j) as [c' Hc'].
      { apply lookup_lt_Some in Hc. lia. }
      rewrite Hc'. simpl. f_equal. by apply (Hbelow j c'). }
  split.
  - destruct (BatchEmbed_sequential sched e ctx contents) as [calls Hrun].
    { by apply constructed_maxPoolSize. }
    rewrite Hfirst in Hrun. by exists calls.
  - destruct (BatchEmbed_sequential sched' e ctx contents) as [calls Hrun].
    { by apply constructed_maxPoolSize. }
    rewrite Hfirst in Hrun. by exists calls.
Qed.

Lemma BatchEmbed_reports_lowest_index_witness :
  (∃ calls,
     LLMEmbedder.BatchEmbed []
       (LLMEmbedder.SetMaxPoolSize
          (LLMEmbedder.NewLLMEmbedder lengthSvc "test-provider" "test-model" 2) 2)
       Background
       [string_any "xx"; string_any ""; string_any "abc"; nil_any]
     = Returned
         {| value :=
              (None,
               Some (Errorf_w "batch embedding failed: "
                       (Errorf_w "failed to get embedding: "
                                 (errorString "empty input"))));
            trace := calls |})
  ∧ (∃ calls',
       LLMEmbedder.BatchEmbed [3; 3; 3; 2; 2; 2; 1; 1; 1]
         (LLMEmbedder.SetMaxPoolSize
            (LLMEmbedder.NewLLMEmbedder lengthSvc "test-provider" "test-model" 2) 2)
         Background
         [string_any "xx"; string_any ""; string_any "abc"; nil_any]
       = Returned
           {| value :=
                (None,
                 Some (Errorf_w "batch embedding failed: "
                         (Errorf_w "failed to get embedding: "
                                   (errorString "empty input"))));
              trace := calls' |}).
Proof.
  apply (BatchEmbed_reports_lowest_index [] [3; 3; 3; 2; 2; 2; 1; 1; 1]
           (LLMEmbedder.SetMaxPoolSize
              (LLMEmbedder.NewLLMEmbedder lengthSvc "test-provider" "test-model" 2) 2)
           Background
           [string_any "xx"; string_any ""; string_any "abc"; nil_any]
           1 (string_any "")).
  - apply LLMEmbedder.constructed_set, LLMEmbedder.constructed_new.
  - reflexivity.
  - reflexivity.
  - intros j c' Hj Hc'. destruct j as [|j]; [|lia].
    injection Hc' as <-. reflexivity.
Defined.

(** ** Further properties of the worker pool and the registry *)





(** An embedder whose ceiling is 0, which only a struct literal can give,
    blocks [BatchEmbed] on any non-empty input: no worker can send on the
    unbuffered [semaphore].  A negative ceiling makes [make] panic. *)
Theorem BatchEmbed_needs_positive_ceiling
    {S : Type} `{!Service.t S} (sched : list nat) (e : LLMEmbedder.t S)
    (ctx : Context) (contents : list any) :
  ((LLMEmbedder.maxPoolSize e < 0)%Z →
   LLMEmbedder.BatchEmbed sched e ctx contents
   = Panicked "makechan: size out of range")
  ∧ (LLMEmbedder.maxPoolSize e = 0%Z → contents ≠ [] →
     LLMEmbedder.BatchEmbed sched e ctx contents = Blocked).
Proof.
  unfold LLMEmbedder.BatchEmbed. split.
  - intros Hneg. by rewrite decide_True.
  - intros Hzero Hne. rewrite decide_False by lia. rewrite Hzero. simpl.
    assert (LLMEmbedder.enabled 0 (LLMEmbedder.start contents) = []) as Hnone.
    { destruct (LLMEmbedder.enabled 0 (LLMEmbedder.start contents))
        as [|ev evs] eqn:Hevs; [done|].
      assert (ev ∈ LLMEmbedder.enabled 0 (LLMEmbedder.start contents)) as Hin
        by (rewrite Hevs; left).
      apply list_elem_of_filter in Hin as [Hfire _].
      destruct ev as [idx|idx|idx|]; simpl in Hfire.
      - by rewrite andb_false_r in Hfire.
      - apply bool_decide_eq_true, lookup_replicate in Hfire as [? _]. done.
      - apply bool_decide_eq_true, lookup_replicate in Hfire as [? _]. done.
      - done. }
    assert (∀ fuel, LLMEmbedder.run 0 e ctx contents fuel sched
                      (LLMEmbedder.start contents)
                    = LLMEmbedder.start contents) as ->.
    { intros [|fuel]; [done|]. simpl. by rewrite Hnone. }
    rewrite decide_False; [done|]. simpl. by destruct contents.
Qed.

Lemma BatchEmbed_needs_positive_ceiling_witness :
  LLMEmbedder.BatchEmbed [1; 2]
    {| LLMEmbedder.service := mockSvc expectedEmbedding;
       LLMEmbedder.provider := "test-provider"; LLMEmbedder.model := "test-model";
       LLMEmbedder.dimensions := 3; LLMEmbedder.maxPoolSize := -1 |}
    Background [string_any "x"]
  = Panicked "makechan: size out of range"
  ∧ LLMEmbedder.BatchEmbed [1; 2]
      {| LLMEmbedder.service := mockSvc expectedEmbedding;
         LLMEmbedder.provider := "test-provider"; LLMEmbedder.model := "test-model";
         LLMEmbedder.dimensions := 3; LLMEmbedder.maxPoolSize := 0 |}
      Background [string_any "x"]
    = Blocked.
Proof.
  split.
  - apply (proj1 (BatchEmbed_needs_positive_ceiling [1; 2]
             {| LLMEmbedder.service := mockSvc expectedEmbedding;
                LLMEmbedder.provider := "test-provider";
                LLMEmbedder.model := "test-model";
                LLMEmbedder.dimensions := 3; LLMEmbedder.maxPoolSize := -1 |}
             Background [string_any "x"])).
    reflexivity.
  - apply (proj2 (BatchEmbed_needs_positive_ceiling [1; 2]
             {| LLMEmbedder.service := mockSvc expectedEmbedding;
                LLMEmbedder.provider := "test-provider";
                LLMEmbedder.model := "test-model";
                LLMEmbedder.dimensions := 3; LLMEmbedder.maxPoolSize := 0 |}
             Background [string_any "x"])).
    + reflexivity.
    + discriminate.
Defined.

(** [GetProvider] fails with "provider <name> not found" on a name that
    is not registered, and after a successful [RegisterProvider] returns
    the very provider that was registered. *)
Theorem GetProvider_found_or_not
    (s : service.t) (p : Provider.t) (name : string) :
  (service.providers s !! name = None →
   service.GetProvider s name
   = (None, Some (errorString ("provider " +:+ name +:+ " not found"))))
  ∧ (service.GetProvider service.NewService name
     = (None, Some (errorString ("provider " +:+ name +:+ " not found"))))
  ∧ ((service.RegisterProvider s (Some p)).2 = None →
     service.GetProvider (service.RegisterProvider s (Some p)).1 (Provider.Name p)
     = (Some p, None)).
Proof.
  split_and!.
  - intros Hnone. unfold service.GetProvider. by rewrite Hnone.
  - done.
  - unfold service.RegisterProvider, service.GetProvider.
    destruct (decide _); [done|].
    destruct (service.providers s !! Provider.Name p); [done|].
    intros _. simpl. by rewrite lookup_insert_eq.
Qed.

Lemma GetProvider_found_or_not_witness :
  service.GetProvider (registry_of [provider1]) "non-existent"
  = (None, Some (errorString "provider non-existent not found"))
  ∧ service.GetProvider
      (service.RegisterProvider (registry_of [provider1]) (Some provider2)).1
      "provider2"
    = (Some provider2, None).
Proof.
  split.
  - apply (proj1 (GetProvider_found_or_not (registry_of [provider1]) provider2
                    "non-existent")).
    vm_compute. reflexivity.
  - apply (proj2 (proj2 (GetProvider_found_or_not (registry_of [provider1])
                           provider2 "non-existent"))).
    vm_compute. reflexivity.
Defined.

(** [ListProviders] returns, in some order and without repetition,
    exactly the names registered with success so far: none in a new
    registry, and one more after each [RegisterProvider] that returns a
    nil error. *)
Theorem ListProviders_registered_names
    (rnd rnd' : list nat) (s : service.t) (provider : option Provider.t) :
  service.ListProviders rnd service.NewService = Some []
  ∧ (list_to_set (default [] (service.ListProviders rnd'
                                (service.RegisterProvider s provider).1))
     : gset string)
    = match provider, (service.RegisterProvider s provider).2 with
      | Some p, None =>
          {[ Provider.Name p ]}
          ∪ list_to_set (default [] (service.ListProviders rnd s))
      | _, _ => list_to_set (default [] (service.ListProviders rnd s))
      end.
Proof.
  split.
  - rewrite ListProviders_eq. unfold range_map. simpl.
    rewrite map_to_list_empty. by destruct rnd.
  - assert (∀ r (s0 : service.t),
              (list_to_set (default [] (service.ListProviders r s0)) : gset string)
              = dom (service.providers s0)) as Hdom.
    { intros r s0. apply set_eq. intros name.
      by rewrite elem_of_list_to_set, elem_of_ListProviders, elem_of_dom. }
    rewrite !Hdom, RegisterProvider_providers.
    unfold service.RegisterProvider. destruct provider as [p|]; [|done].
    destruct (decide _); [done|].
    destruct (service.providers s !! Provider.Name p); [done|].
    simpl. by rewrite dom_insert_L.
Qed.

(** The scenario of the package's [TestListModels], for every iteration
    order: two providers with two and one models. *)
Theorem ListModels_two_providers (rnd_copy rnd_call : list nat) :
  service.ListModels rnd_copy rnd_call (registry_of [provider1; provider2])
                     Background
  = (Some {[ "provider1" := Some [model_named "model1" 1024;
                                  model_named "model2" 2048];
             "provider2" := Some [model_named "model3" 4096] ]},
     None).
Proof.
  rewrite ListModels_all_ok.
  - vm_compute. reflexivity.
  - intros name p Hp. apply elem_of_map_to_list in Hp.
    change ((λ entry : string * Provider.t,
               (Provider.ListModels entry.2 Background).2 = None) (name, p)).
    revert Hp. generalize (name, p). apply (proj1 (Forall_forall _ _)).
    vm_compute. repeat constructor.
Qed.

(** The scenario of the package's [TestBatchEmbed], for every schedule:
    three texts under a ceiling of 2, against a backend that always
    answers [0.1, 0.2, 0.3]. *)
Theorem BatchEmbed_three_texts (sched : list nat) :
  ∃ calls,
    LLMEmbedder.BatchEmbed sched
      (LLMEmbedder.SetMaxPoolSize
         (LLMEmbedder.NewLLMEmbedder (mockSvc expectedEmbedding)
                                     "test-provider" "test-model" 3) 2)
      Background [string_any "x"; string_any "y"; string_any "z"]
    = Returned
        {| value := (Some [expectedEmbedding; expectedEmbedding; expectedEmbedding],
                     None);
           trace := calls |}.
Proof.
  destruct (BatchEmbed_sequential sched
              (LLMEmbedder.SetMaxPoolSize
                 (LLMEmbedder.NewLLMEmbedder (mockSvc expectedEmbedding)
                                             "test-provider" "test-model" 3) 2)
              Background [string_any "x"; string_any "y"; string_any "z"])
    as [calls Hrun]; [done|].
  exists calls. exact Hrun.
Qed.

(** * Properties of the rest of the package *)

(** ** Dispatch through the registry *)

(** A call for a provider name that is not registered fails with
    "provider <name> not found" in all four dispatching methods, which
    return the zero value of their result. *)
Theorem dispatch_unknown_provider
    (s : service.t) (ctx : Context) (name modelID : string)
    (completion : CompletionRequest) (chat : ChatRequest)
    (embedding : EmbeddingRequest) :
  service.providers s !! name = None →
  service.GetModel s ctx name modelID
  = (ModelInfo_zero, Some (errorString ("provider " +:+ name +:+ " not found")))
  ∧ service.Complete s ctx name modelID completion
    = (CompletionResponse_zero,
       Some (errorString ("provider " +:+ name +:+ " not found")))
  ∧ service.Chat s ctx name modelID chat
    = (ChatResponse_zero,
       Some (errorString ("provider " +:+ name +:+ " not found")))
  ∧ service.Embed s ctx name modelID embedding
    = (EmbeddingResponse_zero,
       Some (errorString ("provider " +:+ name +:+ " not found"))).
Proof.
  intros Hnone.
  unfold service.GetModel, service.Complete, service.Chat, service.Embed,
    service.GetProvider.
  by rewrite Hnone.
Qed.

Lemma dispatch_unknown_provider_witness :
  service.GetModel (registry_of [provider1]) Background "ollama" "qwen2.5"
  = (ModelInfo_zero, Some (errorString "provider ollama not found"))
  ∧ service.Complete (registry_of [provider1]) Background "ollama" "qwen2.5"
      {| Prompt := "hi"; CompletionRequest_MaxTokens := 0;
         CompletionRequest_Temperature := 0%float;
         CompletionRequest_TopP := 0%float;
         CompletionRequest_FrequencyPenalty := 0%float;
         CompletionRequest_PresencePenalty := 0%float;
         CompletionRequest_Stop := None; CompletionRequest_Metadata := ∅ |}
    = (CompletionResponse_zero, Some (errorString "provider ollama not found"))
  ∧ service.Chat (registry_of [provider1]) Background "ollama" "qwen2.5"
      {| Messages := None; ChatRequest_MaxTokens := 0;
         ChatRequest_Temperature := 0%float; ChatRequest_TopP := 0%float;
         ChatRequest_FrequencyPenalty := 0%float;
         ChatRequest_PresencePenalty := 0%float;
         ChatRequest_Stop := None; ChatRequest_Metadata := ∅ |}
    = (ChatResponse_zero, Some (errorString "provider ollama not found"))
  ∧ service.Embed (registry_of [provider1]) Background "ollama" "qwen2.5"
      {| Input := "hi"; Model := ""; EmbeddingRequest_Metadata := ∅ |}
    = (EmbeddingResponse_zero, Some (errorString "provider ollama not found")).
Proof.
  apply (dispatch_unknown_provider (registry_of [provider1]) Background
           "ollama" "qwen2.5").
  vm_compute. reflexivity.
Defined.

(** After a successful [RegisterProvider(p)], the four dispatching
    methods called with [p]'s name return what [p]'s own methods return,
    verbatim, and for every other name they return what they returned
    before the registration. *)
Theorem dispatch_after_register
    (s : service.t) (p : Provider.t) (ctx : Context) (modelID : string) :
  (service.RegisterProvider s (Some p)).2 = None →
  (service.GetModel (service.RegisterProvider s (Some p)).1 ctx
                    (Provider.Name p) modelID
   = Provider.GetModel p ctx modelID
   ∧ (∀ request,
        service.Complete (service.RegisterProvider s (Some p)).1 ctx
                         (Provider.Name p) modelID request
        = Provider.Complete p ctx modelID request)
   ∧ (∀ request,
        service.Chat (service.RegisterProvider s (Some p)).1 ctx
                     (Provider.Name p) modelID request
        = Provider.Chat p ctx modelID request)
   ∧ (∀ request,
        service.Embed (service.RegisterProvider s (Some p)).1 ctx
                      (Provider.Name p) modelID request
        = Provider.Embed p ctx modelID request))
  ∧ (∀ name, name ≠ Provider.Name p →
       service.GetModel (service.RegisterProvider s (Some p)).1 ctx name modelID
       = service.GetModel s ctx name modelID
       ∧ (∀ request,
            service.Complete (service.RegisterProvider s (Some p)).1 ctx name
                             modelID request
            = service.Complete s ctx name modelID request)
       ∧ (∀ request,
            service.Chat (service.RegisterProvider s (Some p)).1 ctx name
                         modelID request
            = service.Chat s ctx name modelID request)
       ∧ (∀ request,
            service.Embed (service.RegisterProvider s (Some p)).1 ctx name
                          modelID request
            = service.Embed s ctx name modelID request)).
Proof.
  intros Hok.
  assert (service.providers (service.RegisterProvider s (Some p)).1
          = <[Provider.Name p := p]> (service.providers s)) as Hmap.
  { revert Hok. unfold service.RegisterProvider.
    destruct (decide _); [done|].
    by destruct (service.providers s !! Provider.Name p). }
  unfold service.GetModel, service.Complete, service.Chat, service.Embed,
    service.GetProvider.
  rewrite Hmap. split.
  - by rewrite lookup_insert_eq.
  - intros name Hne. by rewrite lookup_insert_ne.
Qed.

Lemma dispatch_after_register_witness :
  service.GetModel
    (service.RegisterProvider (registry_of [provider2]) (Some provider1)).1
    Background "provider1" "model2"
  = (model_named "model2" 2048, None).
Proof.
  apply (proj1 (dispatch_after_register (registry_of [provider2]) provider1
                  Background "model2" eq_refl)).
Defined.

(** ** The embedder: its service calls, and a registry behind it *)

Section embedder_calls.

Context {S : Type} `{!Service.t S}.
Variables (e : LLMEmbedder.t S) (ctx : Context).

Lemma Embed_trace (content : any) :
  trace (LLMEmbedder.Embed e ctx content)
  = match LLMEmbedder.textContent content with
    | Some text => [request_for e ctx text]
    | None => []
    end.
Proof.
  unfold LLMEmbedder.Embed.
  destruct (LLMEmbedder.textContent content) as [text|]; [|done].
  unfold mbind, Traced_bind, LLMEmbedder.service_Embed. simpl.
  destruct (Service.Embed _ _ _ _ _) as [response [err|]]; [done|].
  by destruct (decide _).
Qed.

Lemma issued_same_stage (ws : list worker) (contents : list any) idx w w' :
  ws !! idx = Some w →
  LLMEmbedder.has_stored w = LLMEmbedder.has_stored w' →
  issued e ctx (<[idx := w']> ws) contents = issued e ctx ws contents.
Proof.
  unfold issued. revert idx contents.
  induction ws as [|x ws IH]; intros [|idx] [|c contents] Hidx Hsame;
    simpl in *; try done.
  - injection Hidx as ->. by rewrite Hsame.
  - by rewrite (IH idx contents).
Qed.

Lemma issued_after_work (ws : list worker) (contents : list any) idx c :
  ws !! idx = Some Holding → contents !! idx = Some c →
  issued e ctx (<[idx := Stored]> ws) contents
  ≡ₚ issued e ctx ws contents ++ trace (LLMEmbedder.Embed e ctx c).
Proof.
  unfold issued. revert idx contents.
  induction ws as [|x ws IH]; intros [|idx] [|c' contents] Hidx Hc;
    simpl in *; try done.
  - injection Hidx as ->. injection Hc as ->. simpl. apply Permutation_app_comm.
  - rewrite (IH idx contents) by done. by rewrite app_assoc.
Qed.

Lemma issued_all_stored (ws : list worker) (contents : list any) :
  length ws = length contents →
  (∀ idx w, ws !! idx = Some w → LLMEmbedder.has_stored w = true) →
  issued e ctx ws contents
  = mjoin ((λ c, trace (LLMEmbedder.Embed e ctx c)) <$> contents).
Proof.
  unfold issued. revert contents.
  induction ws as [|x ws IH]; intros [|c contents] Hlen Hall;
    simpl in *; try done.
  rewrite (Hall 0 x eq_refl). f_equal. apply IH; [lia|].
  intros idx w Hidx. by apply (Hall (Datatypes.S idx)).
Qed.

Lemma issued_none_stored (contents : list any) :
  issued e ctx (replicate (length contents) Waiting) contents = [].
Proof. unfold issued. induction contents as [|c contents IH]; by simpl. Qed.

Lemma traces_are_requests (contents : list any) :
  mjoin ((λ c, trace (LLMEmbedder.Embed e ctx c)) <$> contents)
  = omap (λ c, request_for e ctx <$> LLMEmbedder.textContent c) contents.
Proof.
  induction contents as [|c contents IH]; [done|].
  csimpl. rewrite IH, Embed_trace.
  by destruct (LLMEmbedder.textContent c).
Qed.

(** Every step keeps the log of calls a rearrangement of the calls of the
    workers that have made theirs. *)
Lemma step_calls (contents : list any) cap (s : LLMEmbedder.batch) ev :
  LLMEmbedder.batch_inv cap e ctx contents s →
  LLMEmbedder.can_fire cap s ev = true →
  LLMEmbedder.calls s ≡ₚ issued e ctx (LLMEmbedder.workers s) contents →
  LLMEmbedder.calls (LLMEmbedder.step e ctx contents ev s)
  ≡ₚ issued e ctx (LLMEmbedder.workers (LLMEmbedder.step e ctx contents ev s))
            contents.
Proof.
  intros [Hr He Hw _ _ _ _] Hfire Hcalls.
  destruct ev as [idx|idx|idx|]; simpl in Hfire.
  - apply andb_true_iff in Hfire as [Hidx _].
    apply bool_decide_eq_true in Hidx. simpl.
    by rewrite (issued_same_stage _ _ _ Waiting).
  - apply bool_decide_eq_true in Hfire.
    assert (idx < length contents) as Hlt
      by (rewrite <-Hw; by eapply lookup_lt_Some).
    destruct (lookup_lt_is_Some_2 contents idx Hlt) as [c Hc].
    unfold LLMEmbedder.step. rewrite Hc.
    destruct (value (LLMEmbedder.Embed e ctx c)) as [embedding [err|]]; simpl;
      by rewrite issued_after_work, Hcalls.
  - apply bool_decide_eq_true in Hfire. simpl.
    by rewrite (issued_same_stage _ _ _ Stored).
  - done.
Qed.

Lemma run_calls (contents : list any) cap fuel sched (s : LLMEmbedder.batch) :
  LLMEmbedder.batch_inv cap e ctx contents s →
  LLMEmbedder.calls s ≡ₚ issued e ctx (LLMEmbedder.workers s) contents →
  LLMEmbedder.calls (LLMEmbedder.run cap e ctx contents fuel sched s)
  ≡ₚ issued e ctx
       (LLMEmbedder.workers (LLMEmbedder.run cap e ctx contents fuel sched s))
       contents.
Proof.
  revert sched s. induction fuel as [|fuel IH]; intros sched s Hinv Hcalls;
    [done|].
  simpl. destruct (_ !! _) as [ev|] eqn:Hpick; [|done].
  apply list_elem_of_lookup_2, list_elem_of_filter in Hpick as [Hfire _].
  apply IH; [by apply (step_inv e ctx contents cap s ev)
           |by apply (step_calls contents cap)].
Qed.

End embedder_calls.

(** [BatchEmbed] does not cancel anything: whether or not some item
    fails, and under every schedule, the calls it makes to the service
    are, in some order, exactly one request for each item the type switch
    accepts, and none for the others. *)
Theorem BatchEmbed_calls_every_item
    {S : Type} `{!Service.t S} (sched : list nat) (e : LLMEmbedder.t S)
    (ctx : Context) (contents : list any) :
  LLMEmbedder.constructed e →
  ∃ result calls,
    LLMEmbedder.BatchEmbed sched e ctx contents
    = Returned {| value := result; trace := calls |}
    ∧ calls ≡ₚ omap (λ c, request_for e ctx <$> LLMEmbedder.textContent c)
                    contents.
Proof.
  intros He. apply constructed_maxPoolSize in He.
  unfold LLMEmbedder.BatchEmbed. rewrite decide_False by lia.
  set (cap := Z.to_nat (LLMEmbedder.maxPoolSize e)).
  set (s := LLMEmbedder.run cap e ctx contents (4 * length contents) sched
              (LLMEmbedder.start contents)).
  destruct (run_exhausts e ctx contents cap (4 * length contents) sched
              (LLMEmbedder.start contents))
    as (Hinv & _ & Hleft).
  { apply start_inv. }
  { by rewrite start_steps_left. }
  fold s in Hinv, Hleft.
  assert (LLMEmbedder.steps_left s = 0) as Hzero by (apply Hleft; unfold cap; lia).
  destruct (finished_slots e ctx contents cap s Hinv Hzero) as (Hrecv & _ & _).
  rewrite decide_True by done. eexists _, _. split; [done|]. simpl.
  rewrite <-traces_are_requests.
  rewrite <-(issued_all_stored e ctx (LLMEmbedder.workers s)).
  - apply run_calls; [apply start_inv|]. simpl. by rewrite issued_none_stored.
  - by destruct Hinv.
  - intros idx w Hidx. unfold LLMEmbedder.steps_left in Hzero.
    pose proof (weight_zero LLMEmbedder.rank (LLMEmbedder.workers s) idx w
                            ltac:(lia) Hidx).
    by destruct w.
Qed.

Lemma BatchEmbed_calls_every_item_witness :
  ∃ result calls,
    LLMEmbedder.BatchEmbed [4; 1; 0; 2]
      (LLMEmbedder.SetMaxPoolSize
         (LLMEmbedder.NewLLMEmbedder failingSvc "test-provider" "test-model" 3) 2)
      Background [string_any "text1"; int_any 123; string_any "text3"]
    = Returned {| value := result; trace := calls |}
    ∧ calls
      ≡ₚ omap (λ c,
                 request_for
                   (LLMEmbedder.SetMaxPoolSize
                      (LLMEmbedder.NewLLMEmbedder failingSvc "test-provider"
                                                  "test-model" 3) 2)
                   Background <$> LLMEmbedder.textContent c)
              [string_any "text1"; int_any 123; string_any "text3"].
Proof.
  apply (BatchEmbed_calls_every_item [4; 1; 0; 2]
           (LLMEmbedder.SetMaxPoolSize
              (LLMEmbedder.NewLLMEmbedder failingSvc "test-provider" "test-model" 3) 2)
           Background [string_any "text1"; int_any 123; string_any "text3"]).
  apply LLMEmbedder.constructed_set, LLMEmbedder.constructed_new.
Defined.

(** An embedder in front of a registry where its provider name is not
    registered never succeeds: [Embed] fails on every content (with the
    registry's "provider <name> not found", wrapped, when the content is
    textual), and so does [BatchEmbed] on every non-empty input, under
    every schedule.  On the empty input [BatchEmbed] succeeds, with an
    empty sequence that is not nil and without any call. *)
Theorem Embedder_unregistered_provider
    (sched : list nat) (e : LLMEmbedder.t service.t) (ctx : Context)
    (contents : list any) :
  LLMEmbedder.constructed e →
  service.providers (LLMEmbedder.service e) !! LLMEmbedder.provider e = None →
  (∀ content text,
     LLMEmbedder.textContent content = Some text →
     value (LLMEmbedder.Embed e ctx content)
     = (None,
        Some (Errorf_w "failed to get embedding: "
                (errorString ("provider " +:+ LLMEmbedder.provider e
                              +:+ " not found")))))
  ∧ (∀ content, (value (LLMEmbedder.Embed e ctx content)).2 ≠ None)
  ∧ (contents ≠ [] →
     ∃ err calls,
       LLMEmbedder.BatchEmbed sched e ctx contents
       = Returned {| value := (None, Some err); trace := calls |})
  ∧ LLMEmbedder.BatchEmbed sched e ctx []
    = Returned {| value := (Some [], None); trace := [] |}.
Proof.
  intros He Hnone.
  assert (∀ content text,
            LLMEmbedder.textContent content = Some text →
            value (LLMEmbedder.Embed e ctx content)
            = (None,
               Some (Errorf_w "failed to get embedding: "
                       (errorString ("provider " +:+ LLMEmbedder.provider e
                                     +:+ " not found"))))) as Htext.
  { intros content text Hcontent.
    rewrite (Embed_accepted e ctx content text EmbeddingResponse_zero
               (Some (errorString ("provider " +:+ LLMEmbedder.provider e
                                   +:+ " not found")))); [done|done|].
    simpl. unfold service.Embed, service.GetProvider. by rewrite Hnone. }
  assert (∀ content, (value (LLMEmbedder.Embed e ctx content)).2 ≠ None) as Hfail.
  { intros content.
    destruct (LLMEmbedder.textContent content) as [text|] eqn:Hcontent.
    - by rewrite (Htext content text).
    - unfold LLMEmbedder.Embed. by rewrite Hcontent. }
  pose proof (constructed_maxPoolSize e He) as Hpos.
  split_and!; [done|done| |].
  - intros Hne.
    destruct (BatchEmbed_sequential sched e ctx contents Hpos) as [calls Hrun].
    destruct (first_error_some (LLMEmbedder.stored_err e ctx <$> contents))
      as [err Herr].
    { destruct contents as [|c contents]; [done|].
      apply Exists_cons. left. apply Hfail. }
    rewrite Herr in Hrun. by eexists _, _.
  - unfold LLMEmbedder.BatchEmbed. by rewrite decide_False by lia.
Qed.

Lemma Embedder_unregistered_provider_witness :
  (∀ content text,
     LLMEmbedder.textContent content = Some text →
     value (LLMEmbedder.Embed
              (LLMEmbedder.NewLLMEmbedder (registry_of [provider1])
                                          "ollama" "mxbai-embed-large" 1536)
              Background content)
     = (None,
        Some (Errorf_w "failed to get embedding: "
                (errorString "provider ollama not found"))))
  ∧ (∀ content,
       (value (LLMEmbedder.Embed
                 (LLMEmbedder.NewLLMEmbedder (registry_of [provider1])
                                             "ollama" "mxbai-embed-large" 1536)
                 Background content)).2 ≠ None)
  ∧ ([string_any "a"; string_any "b"] ≠ [] →
     ∃ err calls,
       LLMEmbedder.BatchEmbed [1; 0]
         (LLMEmbedder.NewLLMEmbedder (registry_of [provider1])
                                     "ollama" "mxbai-embed-large" 1536)
         Background [string_any "a"; string_any "b"]
       = Returned {| value := (None, Some err); trace := calls |})
  ∧ LLMEmbedder.BatchEmbed [1; 0]
      (LLMEmbedder.NewLLMEmbedder (registry_of [provider1])
                                  "ollama" "mxbai-embed-large" 1536)
      Background []
    = Returned {| value := (Some [], None); trace := [] |}.
Proof.
  apply (Embedder_unregistered_provider [1; 0]
           (LLMEmbedder.NewLLMEmbedder (registry_of [provider1])
                                       "ollama" "mxbai-embed-large" 1536)
           Background [string_any "a"; string_any "b"]).
  - apply LLMEmbedder.constructed_new.
  - vm_compute. reflexivity.
Defined.

(** ** The adapter and the embedding functions *)



(** ** The Ollama provider *)

Lemma string_app_nil_r (s : string) : s +:+ "" = s.
Proof.
  induction s as [|a s IH]; [done|].
  change (String a (s +:+ "") = String a s). by f_equal.
Qed.

Lemma string_app_assoc (s1 s2 s3 : string) :
  (s1 +:+ s2) +:+ s3 = s1 +:+ s2 +:+ s3.
Proof.
  induction s1 as [|a s1 IH]; [done|].
  change (String a ((s1 +:+ s2) +:+ s3) = String a (s1 +:+ s2 +:+ s3)).
  by f_equal.
Qed.

(** What the callback of [Complete] has accumulated after a stream. *)
Lemma Complete_accumulates (responses : list api.GenerateResponse)
    (text : string) (promptEval eval : Z) :
  foldl (λ '(finalResponse, _, _) response,
           (finalResponse +:+ api.Response response,
            api.GenerateResponse_PromptEvalCount response,
            api.GenerateResponse_EvalCount response))
        (text, promptEval, eval) responses
  = (text +:+ join (api.Response <$> responses),
     from_option api.GenerateResponse_PromptEvalCount promptEval (last responses),
     from_option api.GenerateResponse_EvalCount eval (last responses)).
Proof.
  revert text promptEval eval.
  induction responses as [|r responses IH]; intros text promptEval eval.
  - simpl. by rewrite string_app_nil_r.
  - cbn [foldl]. rewrite IH. csimpl. unfold join at 2. cbn [foldr].
    fold (join (api.Response <$> responses)).
    rewrite string_app_assoc, last_cons. by destruct (last responses).
Qed.

(** What the callback of [Chat] has accumulated after a stream. *)
Lemma Chat_accumulates (responses : list api.ChatResponse)
    (text : string) (final : api.ChatResponse) :
  foldl (λ '(responseContent, _) response,
           (responseContent
              +:+ api.Message_Content (api.ChatResponse_Message response),
            response))
        (text, final) responses
  = (text +:+ join ((λ r, api.Message_Content (api.ChatResponse_Message r))
                      <$> responses),
     default final (last responses)).
Proof.
  revert text final.
  induction responses as [|r responses IH]; intros text final.
  - simpl. by rewrite string_app_nil_r.
  - cbn [foldl]. rewrite IH. csimpl. unfold join at 2. cbn [foldr].
    fold (join ((λ r, api.Message_Content (api.ChatResponse_Message r))
                  <$> responses)).
    rewrite string_app_assoc, last_cons. by destruct (last responses).
Qed.

Lemma int_add_small (a b : Z) :
  (- 2 ^ 63 ≤ a + b < 2 ^ 63)%Z → int_add a b = (a + b)%Z.
Proof.
  intros Hrange. unfold int_add, int_wrap.
  rewrite Z.mod_small by lia. lia.
Qed.

Lemma Complete_closed_form
    (p : OllamaProvider.t) (ctx : Context) (modelID : string)
    (request : CompletionRequest) (responses : list api.GenerateResponse)
    (err : option error) :
  api.Generate (OllamaProvider.client p) ctx
    {| api.GenerateRequest_Model := modelID;
       api.GenerateRequest_Prompt := Prompt request;
       api.GenerateRequest_Options :=
         OllamaProvider.options_of (CompletionRequest_Temperature request)
           (CompletionRequest_TopP request) (CompletionRequest_Stop request) |}
  = (responses, err) →
  OllamaProvider.Complete p ctx modelID request
  = match err with
    | Some err =>
        (CompletionResponse_zero,
         Some (Errorf_w "failed to generate completion: " err))
    | None =>
        ({| Text := join (api.Response <$> responses);
            CompletionResponse_Usage :=
              {| PromptTokens :=
                   from_option api.GenerateResponse_PromptEvalCount 0%Z
                               (last responses);
                 CompletionTokens :=
                   from_option api.GenerateResponse_EvalCount 0%Z (last responses);
                 TotalTokens :=
                   int_add
                     (from_option api.GenerateResponse_PromptEvalCount 0%Z
                                  (last responses))
                     (from_option api.GenerateResponse_EvalCount 0%Z
                                  (last responses)) |};
            CompletionResponse_Metadata := ∅;
            CompletionResponse_Timestamp := 0 |},
         None)
    end.
Proof.
  intros Hcall. unfold OllamaProvider.Complete. rewrite Hcall.
  rewrite Complete_accumulates. by destruct err.
Qed.

(** [Complete] returns the texts of the streamed responses joined in the
    order they arrived, with the token counts of the last response (zero
    when the stream was empty) and their sum, wrapped around at 64 bits,
    as the total; the total is the plain sum when that fits.  When the
    client returns an error, everything streamed before it is dropped:
    the result is the zero response and the error wrapped as "failed to
    generate completion: <cause>". *)
Theorem Ollama_Complete_stream
    (p : OllamaProvider.t) (ctx : Context) (modelID : string)
    (request : CompletionRequest) (responses : list api.GenerateResponse)
    (err : option error) :
  api.Generate (OllamaProvider.client p) ctx
    {| api.GenerateRequest_Model := modelID;
       api.GenerateRequest_Prompt := Prompt request;
       api.GenerateRequest_Options :=
         OllamaProvider.options_of (CompletionRequest_Temperature request)
           (CompletionRequest_TopP request) (CompletionRequest_Stop request) |}
  = (responses, err) →
  let promptEval :=
    from_option api.GenerateResponse_PromptEvalCount 0%Z (last responses) in
  let eval := from_option api.GenerateResponse_EvalCount 0%Z (last responses) in
  OllamaProvider.Complete p ctx modelID request
  = match err with
    | Some err =>
        (CompletionResponse_zero,
         Some (Errorf_w "failed to generate completion: " err))
    | None =>
        ({| Text := join (api.Response <$> responses);
            CompletionResponse_Usage :=
              {| PromptTokens := promptEval; CompletionTokens := eval;
                 TotalTokens := int_add promptEval eval |};
            CompletionResponse_Metadata := ∅;
            CompletionResponse_Timestamp := 0 |},
         None)
    end
  ∧ ((- 2 ^ 63 ≤ promptEval + eval < 2 ^ 63)%Z →
     int_add promptEval eval = (promptEval + eval)%Z).
Proof.
  intros Hcall. cbv zeta. split; [|apply int_add_small].
  by apply Complete_closed_form.
Qed.

Lemma Ollama_Complete_stream_witness :
  OllamaProvider.Complete (scripted_ollama ["Once "; "upon "; "a time"] None)
    Background "qwen2.5"
    {| Prompt := "Tell a story"; CompletionRequest_MaxTokens := 0;
       CompletionRequest_Temperature := 0x1.6666666666666p-1%float;
       CompletionRequest_TopP := 0%float;
       CompletionRequest_FrequencyPenalty := 0%float;
       CompletionRequest_PresencePenalty := 0%float;
       CompletionRequest_Stop := None; CompletionRequest_Metadata := ∅ |}
  = ({| Text := "Once upon a time";
        CompletionResponse_Usage :=
          {| PromptTokens := 7; CompletionTokens := 11; TotalTokens := 18 |};
        CompletionResponse_Metadata := ∅;
        CompletionResponse_Timestamp := 0 |},
     None).
Proof.
  apply (proj1 (Ollama_Complete_stream
    (scripted_ollama ["Once "; "upon "; "a time"] None) Background "qwen2.5"
    {| Prompt := "Tell a story"; CompletionRequest_MaxTokens := 0;
       CompletionRequest_Temperature := 0x1.6666666666666p-1%float;
       CompletionRequest_TopP := 0%float;
       CompletionRequest_FrequencyPenalty := 0%float;
       CompletionRequest_PresencePenalty := 0%float;
       CompletionRequest_Stop := None; CompletionRequest_Metadata := ∅ |}
    _ None eq_refl)).
Defined.

(** [Chat] returns the role and the token counts of the last streamed
    response.  Its content is the content of that last response alone
    when it is not empty, and the contents of all responses joined in
    order when it is; an empty stream gives an empty message.  When the
    client returns an error the result is the zero response and the
    error wrapped as "failed to generate chat response: <cause>". *)
Theorem Ollama_Chat_content
    (p : OllamaProvider.t) (ctx : Context) (modelID : string)
    (request : ChatRequest) (responses : list api.ChatResponse)
    (err : option error) :
  api.Chat (OllamaProvider.client p) ctx
    {| api.ChatRequest_Model := modelID;
       api.ChatRequest_Messages :=
         Some ((λ msg, {| api.Message_Role := Role msg;
                          api.Message_Content := Content msg |})
                 <$> default [] (Messages request));
       api.ChatRequest_Options :=
         OllamaProvider.options_of (ChatRequest_Temperature request)
           (ChatRequest_TopP request) (ChatRequest_Stop request) |}
  = (responses, err) →
  let final := default api.ChatResponse_zero (last responses) in
  let contents :=
    (λ r, api.Message_Content (api.ChatResponse_Message r)) <$> responses in
  OllamaProvider.Chat p ctx modelID request
  = match err with
    | Some err =>
        (ChatResponse_zero,
         Some (Errorf_w "failed to generate chat response: " err))
    | None =>
        ({| ChatResponse_Message :=
              {| Role := api.Message_Role (api.ChatResponse_Message final);
                 Content :=
                   if decide (default "" (last contents) = "")
                   then join contents
                   else default "" (last contents);
                 Message_Name := ""; Message_Context := ∅ |};
            ChatResponse_Usage :=
              {| PromptTokens := api.ChatResponse_PromptEvalCount final;
                 CompletionTokens := api.ChatResponse_EvalCount final;
                 TotalTokens :=
                   int_add (api.ChatResponse_PromptEvalCount final)
                           (api.ChatResponse_EvalCount final) |};
            ChatResponse_Metadata := ∅;
            ChatResponse_Timestamp := 0 |},
         None)
    end.
Proof.
  intros Hcall. cbv zeta.
  unfold OllamaProvider.Chat. rewrite Hcall, Chat_accumulates.
  destruct err as [err|]; [done|].
  rewrite fmap_last.
  destruct (last responses) as [r|]; simpl; [|done].
  by destruct (decide _).
Qed.

Lemma Ollama_Chat_content_witness :
  Content (ChatResponse_Message
             (OllamaProvider.Chat (scripted_ollama ["Hel"; "lo"; ""] None)
                Background "qwen2.5"
                {| Messages := Some [ {| Role := "user"; Content := "Hi";
                                         Message_Name := "";
                                         Message_Context := ∅ |} ];
                   ChatRequest_MaxTokens := 0;
                   ChatRequest_Temperature := 0%float;
                   ChatRequest_TopP := 0%float;
                   ChatRequest_FrequencyPenalty := 0%float;
                   ChatRequest_PresencePenalty := 0%float;
                   ChatRequest_Stop := None; ChatRequest_Metadata := ∅ |}).1)
  = "Hello"
  ∧ Content (ChatResponse_Message
               (OllamaProvider.Chat (scripted_ollama ["Hel"; "lo"] None)
                  Background "qwen2.5"
                  {| Messages := None; ChatRequest_MaxTokens := 0;
                     ChatRequest_Temperature := 0%float;
                     ChatRequest_TopP := 0%float;
                     ChatRequest_FrequencyPenalty := 0%float;
                     ChatRequest_PresencePenalty := 0%float;
                     ChatRequest_Stop := None; ChatRequest_Metadata := ∅ |}).1)
    = "lo".
Proof.
  split.
  - rewrite (Ollama_Chat_content (scripted_ollama ["Hel"; "lo"; ""] None)
               Background "qwen2.5" _ _ None eq_refl).
    reflexivity.
  - rewrite (Ollama_Chat_content (scripted_ollama ["Hel"; "lo"] None)
               Background "qwen2.5" _ _ None eq_refl).
    reflexivity.
Defined.

(** [Complete], [Chat] and [Embed] of the Ollama provider look at a part
    of their request only.  A completion depends on the prompt, the
    temperature, top-p and the stop sequences (an empty list of them
    counting as none); a chat on the role and content of each message and
    the same three parameters; an embedding on the input text.  The token
    limit, the penalties, the metadata, the names and contexts of
    messages and the request's own model field never reach the client. *)
Theorem Ollama_ignored_fields
    (p : OllamaProvider.t) (ctx : Context) (modelID : string) :
  (∀ r1 r2 : CompletionRequest,
     Prompt r1 = Prompt r2 →
     CompletionRequest_Temperature r1 = CompletionRequest_Temperature r2 →
     CompletionRequest_TopP r1 = CompletionRequest_TopP r2 →
     (CompletionRequest_Stop r1 = CompletionRequest_Stop r2
      ∨ len (CompletionRequest_Stop r1) = 0%Z
        ∧ len (CompletionRequest_Stop r2) = 0%Z) →
     OllamaProvider.Complete p ctx modelID r1
     = OllamaProvider.Complete p ctx modelID r2)
  ∧ (∀ r1 r2 : ChatRequest,
       (λ msg, (Role msg, Content msg)) <$> default [] (Messages r1)
       = (λ msg, (Role msg, Content msg)) <$> default [] (Messages r2) →
       ChatRequest_Temperature r1 = ChatRequest_Temperature r2 →
       ChatRequest_TopP r1 = ChatRequest_TopP r2 →
       (ChatRequest_Stop r1 = ChatRequest_Stop r2
        ∨ len (ChatRequest_Stop r1) = 0%Z ∧ len (ChatRequest_Stop r2) = 0%Z) →
       OllamaProvider.Chat p ctx modelID r1 = OllamaProvider.Chat p ctx modelID r2)
  ∧ (∀ r1 r2 : EmbeddingRequest,
       Input r1 = Input r2 →
       OllamaProvider.Embed p ctx modelID r1 = OllamaProvider.Embed p ctx modelID r2).
Proof.
  assert (∀ t1 t2 stop1 stop2,
            (stop1 = stop2 ∨ len stop1 = 0%Z ∧ len stop2 = 0%Z) →
            OllamaProvider.options_of t1 t2 stop1
            = OllamaProvider.options_of t1 t2 stop2) as Hoptions.
  { intros t1 t2 stop1 stop2 [->|[H1 H2]]; [done|].
    unfold OllamaProvider.options_of. by rewrite !decide_False by lia. }
  split_and!.
  - intros r1 r2 Hprompt Htemp Htop Hstop. unfold OllamaProvider.Complete.
    by rewrite Hprompt, Htemp, Htop, (Hoptions _ _ _ _ Hstop).
  - intros r1 r2 Hmsgs Htemp Htop Hstop. unfold OllamaProvider.Chat.
    rewrite Htemp, Htop, (Hoptions _ _ _ _ Hstop).
    assert ((λ msg, {| api.Message_Role := Role msg;
                       api.Message_Content := Content msg |})
              <$> default [] (Messages r1)
            = (λ msg, {| api.Message_Role := Role msg;
                         api.Message_Content := Content msg |})
                <$> default [] (Messages r2)) as ->; [|done].
    apply (f_equal (fmap (λ rc : string * string,
                            {| api.Message_Role := rc.1;
                               api.Message_Content := rc.2 |}))) in Hmsgs.
    by rewrite <-!list_fmap_compose in Hmsgs.
  - intros r1 r2 Hinput. unfold OllamaProvider.Embed. by rewrite Hinput.
Qed.

Lemma Ollama_ignored_fields_witness :
  OllamaProvider.Complete (scripted_ollama ["ok"] None) Background "qwen2.5"
    {| Prompt := "hi"; CompletionRequest_MaxTokens := 2000;
       CompletionRequest_Temperature := 0%float;
       CompletionRequest_TopP := 0%float;
       CompletionRequest_FrequencyPenalty := 1%float;
       CompletionRequest_PresencePenalty := 1%float;
       CompletionRequest_Stop := Some []; CompletionRequest_Metadata := ∅ |}
  = OllamaProvider.Complete (scripted_ollama ["ok"] None) Background "qwen2.5"
      {| Prompt := "hi"; CompletionRequest_MaxTokens := 1;
         CompletionRequest_Temperature := 0%float;
         CompletionRequest_TopP := 0%float;
         CompletionRequest_FrequencyPenalty := 0%float;
         CompletionRequest_PresencePenalty := 0%float;
         CompletionRequest_Stop := None; CompletionRequest_Metadata := ∅ |}.
Proof.
  apply (proj1 (Ollama_ignored_fields (scripted_ollama ["ok"] None)
                  Background "qwen2.5")).
  - reflexivity.
  - reflexivity.
  - reflexivity.
  - right. split; reflexivity.
Defined.

Lemma foldl_append_info (names : list api.ListModelResponse)
    (acc : slice ModelInfo) :
  foldl (λ modelInfos model,
           append modelInfos
             (OllamaProvider.default_info (api.ListModelResponse_Name model)))
        acc names
  = match names with
    | [] => acc
    | _ => Some (default [] acc
                 ++ ((λ model, OllamaProvider.default_info
                                 (api.ListModelResponse_Name model)) <$> names))
    end.
Proof.
  revert acc. induction names as [|model names IH]; intros acc; [done|].
  cbn [foldl]. rewrite IH. unfold append. csimpl.
  destruct names; simpl; [done|]. by rewrite <-app_assoc.
Qed.

(** [ListModels] returns one entry per model the client lists, in the
    client's order and under the client's names, each with a context
    window of 4096 and an output limit of 2048 whatever the model; the
    slice is nil when the client lists no model.  When the client fails
    it returns nil and the error wrapped as "failed to list models:
    <cause>".  [GetModel] never fails and consults nothing: it answers
    with the same fixed figures for every model id, listed or not. *)
Theorem Ollama_models
    (p : OllamaProvider.t) (ctx : Context) (models : api.ListResponse)
    (err : option error) :
  api.List (OllamaProvider.client p) ctx = (models, err) →
  OllamaProvider.ListModels p ctx
  = match err, default [] (api.Models models) with
    | Some err, _ => (None, Some (Errorf_w "failed to list models: " err))
    | None, [] => (None, None)
    | None, listed =>
        (Some ((λ model, OllamaProvider.default_info
                           (api.ListModelResponse_Name model)) <$> listed),
         None)
    end
  ∧ (err = None →
     len (OllamaProvider.ListModels p ctx).1 = len (api.Models models)
     ∧ ∀ i info,
         default [] (OllamaProvider.ListModels p ctx).1 !! i = Some info →
         ContextWindowSize info = 4096%Z ∧ MaxOutputTokens info = 2048%Z
         ∧ (api.ListModelResponse_Name <$> default [] (api.Models models)) !! i
           = Some (ModelInfo_Name info))
  ∧ (∀ modelID,
       OllamaProvider.GetModel p ctx modelID
       = (OllamaProvider.default_info modelID, None)
       ∧ ModelInfo_Name (OllamaProvider.GetModel p ctx modelID).1 = modelID).
Proof.
  intros Hcall.
  assert (OllamaProvider.ListModels p ctx
          = match err, default [] (api.Models models) with
            | Some err, _ => (None, Some (Errorf_w "failed to list models: " err))
            | None, [] => (None, None)
            | None, listed =>
                (Some ((λ model, OllamaProvider.default_info
                                   (api.ListModelResponse_Name model)) <$> listed),
                 None)
            end) as Hlist.
  { unfold OllamaProvider.ListModels. rewrite Hcall.
    destruct err as [err|]; [done|]. rewrite foldl_append_info.
    by destruct (default [] (api.Models models)). }
  split_and!; [done| |done].
  intros ->. rewrite Hlist.
  destruct (api.Models models) as [[|model listed]|]; simpl; try done.
  split.
  - by rewrite length_fmap.
  - intros [|i] info Hinfo; simpl in *.
    + by injection Hinfo as <-.
    + rewrite list_lookup_fmap in Hinfo. rewrite list_lookup_fmap.
      destruct (listed !! i) as [m|]; simpl in *; [|done].
      by injection Hinfo as <-.
Qed.

Lemma Ollama_models_witness :
  len (OllamaProvider.ListModels (scripted_ollama [] None) Background).1
  = len (api.Models
           {| api.Models := Some [ {| api.ListModelResponse_Name := "qwen2.5" |};
                                   {| api.ListModelResponse_Name :=
                                        "mxbai-embed-large" |} ] |})
  ∧ ∀ i info,
      default [] (OllamaProvider.ListModels (scripted_ollama [] None)
                                            Background).1 !! i = Some info →
      ContextWindowSize info = 4096%Z ∧ MaxOutputTokens info = 2048%Z
      ∧ (api.ListModelResponse_Name
           <$> default []
                 (api.Models
                    {| api.Models :=
                         Some [ {| api.ListModelResponse_Name := "qwen2.5" |};
                                {| api.ListModelResponse_Name :=
                                     "mxbai-embed-large" |} ] |})) !! i
        = Some (ModelInfo_Name info).
Proof.
  apply (proj1 (proj2 (Ollama_models (scripted_ollama [] None) Background
                         _ None eq_refl))).
  reflexivity.
Defined.

(** Whatever the registry, a second provider with the name of one just
    presented is rejected. *)
Lemma RegisterProvider_same_name_twice (s : service.t) (p1 p2 : Provider.t) :
  Provider.Name p2 = Provider.Name p1 → Provider.Name p1 ≠ "" →
  (service.RegisterProvider (service.RegisterProvider s (Some p1)).1 (Some p2)).2
  = Some (errorString ("provider " +:+ Provider.Name p2 +:+ " already registered")).
Proof.
  intros Hsame Hne.
  assert (is_Some (service.providers (service.RegisterProvider s (Some p1)).1
                     !! Provider.Name p2)) as [q Hq].
  { rewrite RegisterProvider_providers, decide_False, Hsame by done.
    destruct (service.providers s !! Provider.Name p1) as [q|] eqn:Hq.
    - by rewrite Hq.
    - by rewrite lookup_insert_eq. }
  unfold service.RegisterProvider at 1.
  rewrite decide_False by congruence. by rewrite Hq.
Qed.

(** [NewOllamaProvider] fails exactly when the endpoint does not parse,
    with the parser's error wrapped as "invalid endpoint URL: <cause>".
    Every provider it returns is named "ollama" and embeds with
    "mxbai-embed-large", whatever the endpoint; so a registry holds at
    most one of them: once one is registered, registering another one,
    for any endpoint, fails with "provider ollama already registered" and
    the first stays the one [GetProvider] returns. *)
Theorem Ollama_registers_once
    (URL : Type) (url_Parse : string → URL * option error)
    (api_NewClient : URL → api.Client) (endpoint1 endpoint2 : string)
    (s : service.t) :
  let new := OllamaProvider.NewOllamaProvider URL url_Parse api_NewClient in
  ((new endpoint1).2 = None ↔ (url_Parse endpoint1).2 = None)
  ∧ (∀ err, (url_Parse endpoint1).2 = Some err →
            new endpoint1 = (None, Some (Errorf_w "invalid endpoint URL: " err)))
  ∧ (∀ p1 p2,
       new endpoint1 = (Some p1, None) →
       new endpoint2 = (Some p2, None) →
       Provider.Name p1 = "ollama"
       ∧ Provider.GetEmbedModel p1 = "mxbai-embed-large"
       ∧ (service.RegisterProvider service.NewService (Some p1)).2 = None
       ∧ (service.RegisterProvider
            (service.RegisterProvider s (Some p1)).1 (Some p2)).2
         = Some (errorString "provider ollama already registered")
       ∧ service.GetProvider
           (service.RegisterProvider
              (service.RegisterProvider service.NewService (Some p1)).1
              (Some p2)).1 "ollama"
         = (Some p1, None)).
Proof.
  cbv zeta. unfold OllamaProvider.NewOllamaProvider.
  destruct (url_Parse endpoint1) as [u1 [err1|]]; simpl.
  - split_and!; [done|by intros ? [= <-]|done].
  - split_and!; [done|done|].
    intros p1 p2 [= <-].
    destruct (url_Parse endpoint2) as [u2 [err2|]]; [done|]. intros [= <-].
    split_and!; try done.
    by apply (RegisterProvider_same_name_twice s).
Qed.

Lemma Ollama_registers_once_witness :
  Provider.Name
    (OllamaProvider.as_Provider
       {| OllamaProvider.embedModel := OllamaProvider.embedModel_const;
          OllamaProvider.client :=
            scripted_client [] 0 0 None (Some (errorString "a:11434")) |})
  = "ollama"
  ∧ Provider.GetEmbedModel
      (OllamaProvider.as_Provider
         {| OllamaProvider.embedModel := OllamaProvider.embedModel_const;
            OllamaProvider.client :=
              scripted_client [] 0 0 None (Some (errorString "a:11434")) |})
    = "mxbai-embed-large"
  ∧ (service.RegisterProvider service.NewService
       (Some (OllamaProvider.as_Provider
                {| OllamaProvider.embedModel := OllamaProvider.embedModel_const;
                   OllamaProvider.client :=
                     scripted_client [] 0 0 None
                                     (Some (errorString "a:11434")) |}))).2
    = None
  ∧ (service.RegisterProvider
       (service.RegisterProvider (registry_of [provider1])
          (Some (OllamaProvider.as_Provider
                   {| OllamaProvider.embedModel := OllamaProvider.embedModel_const;
                      OllamaProvider.client :=
                        scripted_client [] 0 0 None
                                        (Some (errorString "a:11434")) |}))).1
       (Some (OllamaProvider.as_Provider
                {| OllamaProvider.embedModel := OllamaProvider.embedModel_const;
                   OllamaProvider.client :=
                     scripted_client [] 0 0 None
                                     (Some (errorString "b:11434")) |}))).2
    = Some (errorString "provider ollama already registered")
  ∧ service.GetProvider
      (service.RegisterProvider
         (service.RegisterProvider service.NewService
            (Some (OllamaProvider.as_Provider
                     {| OllamaProvider.embedModel := OllamaProvider.embedModel_const;
                        OllamaProvider.client :=
                          scripted_client [] 0 0 None
                                          (Some (errorString "a:11434")) |}))).1
         (Some (OllamaProvider.as_Provider
                  {| OllamaProvider.embedModel := OllamaProvider.embedModel_const;
                     OllamaProvider.client :=
                       scripted_client [] 0 0 None
                                       (Some (errorString "b:11434")) |}))).1
      "ollama"
    = (Some (OllamaProvider.as_Provider
               {| OllamaProvider.embedModel := OllamaProvider.embedModel_const;
                  OllamaProvider.client :=
                    scripted_client [] 0 0 None
                                    (Some (errorString "a:11434")) |}),
       None).
Proof.
  apply (proj2 (proj2 (Ollama_registers_once string
    (λ endpoint, (endpoint, None))
    (λ url, scripted_client [] 0 0 None (Some (errorString url)))
    "a:11434" "b:11434" (registry_of [provider1])))).
  - reflexivity.
  - reflexivity.
Defined.

(** An [LLMAdapter] in front of an Ollama provider: [Complete] sends the
    client the adapter's model and the prompt with a temperature of
    [float32(0.7)], a top-p of 0 and no stop sequences (the adapter's
    token limit of 2000 is not sent), and returns the streamed texts
    joined in order.  When the client fails it returns the empty string
    and the client's error wrapped twice, as "failed to complete text:
    failed to generate completion: <cause>". *)
Theorem Adapter_Complete_over_Ollama
    (p : OllamaProvider.t) (model : string) (ctx : Context) (prompt : string) :
  LLMAdapter.Complete
    (LLMAdapter.NewLLMAdapter (OllamaProvider.as_Provider p) model) ctx prompt
  = match
      api.Generate (OllamaProvider.client p) ctx
        {| api.GenerateRequest_Model := model;
           api.GenerateRequest_Prompt := prompt;
           api.GenerateRequest_Options :=
             {[ "temperature" :=
                  api.float32_value (SpecFloat.S754_finite false 11744051 (-24));
                "top_p" := api.float32_value (SpecFloat.S754_zero false) ]} |}
    with
    | (responses, None) => (join (api.Response <$> responses), None)
    | (_, Some err) =>
        ("",
         Some (Errorf_w "failed to complete text: "
                 (Errorf_w "failed to generate completion: " err)))
    end.
Proof.
  unfold LLMAdapter.Complete, LLMAdapter.NewLLMAdapter. simpl.
  set (request := {| Prompt := prompt; CompletionRequest_MaxTokens := 2000;
                     CompletionRequest_Temperature := _;
                     CompletionRequest_TopP := _;
                     CompletionRequest_FrequencyPenalty := _;
                     CompletionRequest_PresencePenalty := _;
                     CompletionRequest_Stop := None;
                     CompletionRequest_Metadata := ∅ |}).
  assert (OllamaProvider.options_of (CompletionRequest_Temperature request)
            (CompletionRequest_TopP request) (CompletionRequest_Stop request)
          = {[ "temperature" :=
                 api.float32_value (SpecFloat.S754_finite false 11744051 (-24));
               "top_p" := api.float32_value (SpecFloat.S754_zero false) ]})
    as Hoptions by (by vm_compute).
  destruct (api.Generate (OllamaProvider.client p) ctx
              {| api.GenerateRequest_Model := model;
                 api.GenerateRequest_Prompt := prompt;
                 api.GenerateRequest_Options :=
                   {[ "temperature" :=
                        api.float32_value
                          (SpecFloat.S754_finite false 11744051 (-24));
                      "top_p" := api.float32_value (SpecFloat.S754_zero false) ]} |})
    as [responses err] eqn:Hcall.
  rewrite <-Hoptions in Hcall.
  rewrite (Complete_closed_form p ctx model request responses err Hcall).
  by destruct err.
Qed.

(** An embedder in front of a registry that holds an Ollama provider
    under the embedder's provider name: for a textual content, [Embed]
    asks the client for the embedding of the text under the embedder's
    model, and returns the client's vector when the dimension check
    passes.  A failure of the client comes back wrapped twice, as "failed
    to get embedding: failed to generate embeddings: <cause>". *)
Theorem Embedder_over_Ollama
    (e : LLMEmbedder.t service.t) (p : OllamaProvider.t) (ctx : Context)
    (content : any) (text : string) :
  service.providers (LLMEmbedder.service e) !! LLMEmbedder.provider e
  = Some (OllamaProvider.as_Provider p) →
  LLMEmbedder.textContent content = Some text →
  value (LLMEmbedder.Embed e ctx content)
  = match
      api.Embeddings (OllamaProvider.client p) ctx
        {| api.EmbeddingRequest_Model := LLMEmbedder.model e;
           api.EmbeddingRequest_Prompt := text |}
    with
    | (_, Some err) =>
        (None,
         Some (Errorf_w "failed to get embedding: "
                 (Errorf_w "failed to generate embeddings: " err)))
    | (response, None) =>
        if decide ((LLMEmbedder.dimensions e > 0)%Z
                   ∧ len (api.EmbeddingResponse_Embedding response)
                     ≠ LLMEmbedder.dimensions e)
        then
          (None,
           Some (errorString
                   ("expected embedding dimension "
                    +:+ fmt_d (LLMEmbedder.dimensions e) +:+ ", got "
                    +:+ fmt_d (len (api.EmbeddingResponse_Embedding response)))))
        else (api.EmbeddingResponse_Embedding response, None)
    end.
Proof.
  intros Hp Htext.
  destruct (api.Embeddings (OllamaProvider.client p) ctx
              {| api.EmbeddingRequest_Model := LLMEmbedder.model e;
                 api.EmbeddingRequest_Prompt := text |})
    as [response err] eqn:Hcall.
  assert (Service.Embed (LLMEmbedder.service e) ctx (LLMEmbedder.provider e)
            (LLMEmbedder.model e)
            {| Input := text; Model := ""; EmbeddingRequest_Metadata := ∅ |}
          = match err with
            | Some err =>
                (EmbeddingResponse_zero,
                 Some (Errorf_w "failed to generate embeddings: " err))
            | None =>
                ({| Embedding := api.EmbeddingResponse_Embedding response;
                    EmbeddingResponse_Usage :=
                      {| PromptTokens := len_string text; CompletionTokens := 0;
                         TotalTokens := len_string text |};
                    EmbeddingResponse_Metadata := ∅ |},
                 None)
            end) as Hdispatch.
  { change (service.Embed (LLMEmbedder.service e) ctx (LLMEmbedder.provider e)
              (LLMEmbedder.model e)
              {| Input := text; Model := ""; EmbeddingRequest_Metadata := ∅ |}
            = match err with
              | Some err =>
                  (EmbeddingResponse_zero,
                   Some (Errorf_w "failed to generate embeddings: " err))
              | None =>
                  ({| Embedding := api.EmbeddingResponse_Embedding response;
                      EmbeddingResponse_Usage :=
                        {| PromptTokens := len_string text; CompletionTokens := 0;
                           TotalTokens := len_string text |};
                      EmbeddingResponse_Metadata := ∅ |},
                   None)
              end).
    unfold service.Embed, service.GetProvider. rewrite Hp. simpl.
    unfold OllamaProvider.Embed. simpl. rewrite Hcall. by destruct err. }
  destruct err as [err|].
  - by rewrite (Embed_accepted e ctx content text _ _ Htext Hdispatch).
  - by rewrite (Embed_accepted e ctx content text _ _ Htext Hdispatch).
Qed.

Lemma Embedder_over_Ollama_witness :
  value (LLMEmbedder.Embed
           (LLMEmbedder.NewLLMEmbedder
              (registry_of [OllamaProvider.as_Provider (scripted_ollama [] None)])
              "ollama" "mxbai-embed-large" 1536)
           Background (string_any "test text"))
  = (None, Some (errorString "expected embedding dimension 1536, got 3")).
Proof.
  rewrite (Embedder_over_Ollama
             (LLMEmbedder.NewLLMEmbedder
                (registry_of [OllamaProvider.as_Provider (scripted_ollama [] None)])
                "ollama" "mxbai-embed-large" 1536)
             (scripted_ollama [] None) Background (string_any "test text")
             "test text" eq_refl eq_refl).
  reflexivity.
Defined.
